(** * AI front desk (dental): the call dialogue of [src/app.js]

    A shallow embedding of the Express/Twilio webhook handlers of
    [src/app.js] and of the helper [agentReply], together with the
    properties of the dialogue state machine.

    Layout:
    - [JsString]    JavaScript strings as sequences of UTF-16 code units,
                    with [trim], [indexOf], [lastIndexOf] and [slice];
    - [Js]          the values [JSON.parse] can produce (plus [undefined]),
                    truthiness, [||], property reads, completions;
    - [JSON]        [JSON.parse];
    - [App]         the session store, [agentReply], [twiml.say] and the
                    four voice webhooks, in a small state-and-exception
                    monad;
    - derived forms and sample requests;
    - the closed forms of the handlers, then the properties. *)

From Stdlib Require Import ZArith NArith QArith Qround Lqa List Bool Lia Ascii String.
From stdpp Require Import base option countable gmap fin_maps.
Import ListNotations.
Local Open Scope Z_scope.
#[local] Set Warnings "-register-all".

(* ===================================================================== *)
(** ** JavaScript strings *)
(* ===================================================================== *)

Module JsString.

(** A JavaScript string is a finite sequence of 16-bit code units. *)
Definition jsstring : Type := list N.

(** ASCII literals: every character of [t] becomes one code unit. *)
Fixpoint u16 (t : string) : jsstring :=
  match t with
  | EmptyString => []
  | String c t' => N_of_ascii c :: u16 t'
  end.

Arguments u16 : simpl never.

(** The code units removed by [String.prototype.trim]: WhiteSpace and
    LineTerminator of ECMA-262. *)
Definition is_white (c : N) : bool :=
  ((9 <=? c) && (c <=? 13) || (c =? 32) || (c =? 160) || (c =? 5760)
   || (8192 <=? c) && (c <=? 8202) || (c =? 8232) || (c =? 8233)
   || (c =? 8239) || (c =? 8287) || (c =? 12288) || (c =? 65279))%N.

Fixpoint trimStart (t : jsstring) : jsstring :=
  match t with
  | c :: t' => if is_white c then trimStart t' else t
  | [] => []
  end.

Definition trimEnd (t : jsstring) : jsstring := rev (trimStart (rev t)).

Definition trim (t : jsstring) : jsstring := trimEnd (trimStart t).

(** [t.indexOf(c)] for a one-unit search string: the first position of
    [c], or -1. *)
Fixpoint indexOf (t : jsstring) (c : N) : Z :=
  match t with
  | [] => -1
  | d :: t' =>
      if (d =? c)%N then 0
      else let i := indexOf t' c in if i <? 0 then -1 else i + 1
  end.

(** [t.lastIndexOf(c)]: the last position of [c], or -1. *)
Fixpoint lastIndexOf (t : jsstring) (c : N) : Z :=
  match t with
  | [] => -1
  | d :: t' =>
      let i := lastIndexOf t' c in
      if 0 <=? i then i + 1 else if (d =? c)%N then 0 else -1
  end.

(** [t.slice(start, end)] with the clamping of ECMA-262. *)
Definition slice (t : jsstring) (start stop : Z) : jsstring :=
  let len := Z.of_nat (length t) in
  let from := if start <? 0 then Z.max (len + start) 0 else Z.min start len in
  let to := if stop <? 0 then Z.max (len + stop) 0 else Z.min stop len in
  firstn (Z.to_nat (Z.max (to - from) 0)) (skipn (Z.to_nat from) t).

Definition LBRACE : N := 123.
Definition RBRACE : N := 125.

End JsString.
Import JsString.

(* ===================================================================== *)
(** ** JavaScript values *)
(* ===================================================================== *)

Module Js.

(** The values the handlers see: [undefined] and what [JSON.parse] builds.
    A number is kept as the decimal literal it was read from,
    [JNum m e] standing for [m * 10^e]. An object is its list of
    properties in source order; a later binding of a key shadows an
    earlier one. *)
Inductive JsValue : Type :=
  | JUndefined
  | JNull
  | JBool (b : bool)
  | JNum (m e : Z)
  | JStr (t : jsstring)
  | JArr (l : list JsValue)
  | JObj (props : list (jsstring * JsValue)).

(** A decimal [m * 10^e] converts to the double 0 exactly when its
    magnitude is at most [2^-1075], half of the least subnormal. *)
Definition num_is_zero (m e : Z) : bool :=
  (m =? 0) || ((e <? 0) && (Z.abs m * 2 ^ 1075 <=? 10 ^ (- e))).

(** ToBoolean. *)
Definition truthy (v : JsValue) : bool :=
  match v with
  | JUndefined | JNull => false
  | JBool b => b
  | JNum m e => negb (num_is_zero m e)
  | JStr t => match t with [] => false | _ => true end
  | JArr _ | JObj _ => true
  end.

(** [a || b]. *)
Definition js_or (a b : JsValue) : JsValue := if truthy a then a else b.

Inductive JsError : Type :=
  | TypeError
  | SyntaxError
  | ServiceError
  | XmlError.

(** The completion of an evaluation: a value, or a thrown error. *)
Inductive Completion (A : Type) : Type :=
  | Normal (a : A)
  | Thrown (err : JsError).
Arguments Normal {A} a.
Arguments Thrown {A} err.

Definition jsstring_eqb (a b : jsstring) : bool :=
  bool_decide (a = b).

(** The own property [k] of an object literal, the last binding winning. *)
Definition own_prop (props : list (jsstring * JsValue)) (k : jsstring) : JsValue :=
  match find (fun p => jsstring_eqb (fst p) k) (rev props) with
  | Some p => snd p
  | None => JUndefined
  end.

(** [v.k] for the keys the handlers read ([say], [extracted], [name],
    [preferred_time]): a TypeError on [null] and [undefined], the own
    property on an object, [undefined] on every other value (neither the
    primitives' prototypes nor arrays have such a property). *)
Definition get_prop (v : JsValue) (k : jsstring) : Completion JsValue :=
  match v with
  | JUndefined | JNull => Thrown TypeError
  | JObj props => Normal (own_prop props k)
  | _ => Normal JUndefined
  end.

(** [v.trim()]: the method exists on strings only. *)
Definition call_trim (v : JsValue) : Completion jsstring :=
  match v with
  | JStr t => Normal (trim t)
  | _ => Thrown TypeError
  end.

End Js.
Import Js.

(* ===================================================================== *)
(** ** [JSON.parse] *)
(* ===================================================================== *)

Module JSON.

(** JSON white space: tab, line feed, carriage return, space. *)
Definition is_ws (c : N) : bool :=
  ((c =? 9) || (c =? 10) || (c =? 13) || (c =? 32))%N.

Fixpoint skip_ws (t : jsstring) : jsstring :=
  match t with
  | c :: t' => if is_ws c then skip_ws t' else t
  | [] => []
  end.

Definition is_digit (c : N) : bool := ((48 <=? c) && (c <=? 57))%N.

Definition hex_val (c : N) : option N :=
  if is_digit c then Some (c - 48)%N
  else if ((97 <=? c) && (c <=? 102))%N then Some (c - 87)%N
  else if ((65 <=? c) && (c <=? 70))%N then Some (c - 55)%N
  else None.

(** The longest prefix of decimal digits, and what follows it. *)
Fixpoint take_digits (t : jsstring) : jsstring * jsstring :=
  match t with
  | c :: t' =>
      if is_digit c
      then let '(ds, rest) := take_digits t' in (c :: ds, rest)
      else ([], t)
  | [] => ([], [])
  end.

Definition digits_val (ds : jsstring) : Z :=
  fold_left (fun acc c => 10 * acc + Z.of_N (c - 48)) ds 0.

(** [expect c t]: [t] without its first unit when that unit is [c]. *)
Definition expect (c : N) (t : jsstring) : option jsstring :=
  match t with
  | d :: t' => if (d =? c)%N then Some t' else None
  | [] => None
  end.

Fixpoint expect_all (w t : jsstring) : option jsstring :=
  match w with
  | [] => Some t
  | c :: w' => match expect c t with Some t' => expect_all w' t' | None => None end
  end.

(** The characters of a string literal after its opening quote, up to
    the closing quote: escapes are decoded, a raw control character is
    refused. *)
Fixpoint parse_chars (t : jsstring) : option (jsstring * jsstring) :=
  match t with
  | [] => None
  | c :: t1 =>
      if (c =? 34)%N then Some ([], t1)
      else if (c <? 32)%N then None
      else if (c =? 92)%N then
        match t1 with
        | [] => None
        | e :: t2 =>
            let simple (u : N) :=
              match parse_chars t2 with
              | Some (cs, rest) => Some (u :: cs, rest)
              | None => None
              end in
            if (e =? 34)%N then simple 34%N
            else if (e =? 92)%N then simple 92%N
            else if (e =? 47)%N then simple 47%N
            else if (e =? 98)%N then simple 8%N
            else if (e =? 102)%N then simple 12%N
            else if (e =? 110)%N then simple 10%N
            else if (e =? 114)%N then simple 13%N
            else if (e =? 116)%N then simple 9%N
            else if (e =? 117)%N then
              match t2 with
              | h1 :: h2 :: h3 :: h4 :: t3 =>
                  match hex_val h1, hex_val h2, hex_val h3, hex_val h4 with
                  | Some a, Some b, Some c', Some d =>
                      match parse_chars t3 with
                      | Some (cs, rest) =>
                          Some ((((a * 16 + b) * 16 + c') * 16 + d)%N :: cs, rest)
                      | None => None
                      end
                  | _, _, _, _ => None
                  end
              | _ => None
              end
            else None
        end
      else
        match parse_chars t1 with
        | Some (cs, rest) => Some (c :: cs, rest)
        | None => None
        end
  end.

(** A number literal: an optional minus sign, an integer part without
    a leading zero, an optional fraction and an optional exponent. *)
Definition parse_number (t : jsstring) : option (JsValue * jsstring) :=
  let '(neg, t0) :=
    match t with
    | c :: t' => if (c =? 45)%N then (true, t') else (false, t)
    | [] => (false, t)
    end in
  let '(ip, t1) := take_digits t0 in
  match ip with
  | [] => None
  | d :: more =>
      if (d =? 48)%N && negb (match more with [] => true | _ => false end)
      then None
      else
        let frac :=
          match t1 with
          | c :: t' =>
              if (c =? 46)%N
              then let '(fp, t2) := take_digits t' in
                   match fp with [] => None | _ => Some (fp, t2) end
              else Some ([], t1)
          | [] => Some ([], t1)
          end in
        match frac with
        | None => None
        | Some (fp, t2) =>
            let expo :=
              match t2 with
              | c :: t' =>
                  if (c =? 101)%N || (c =? 69)%N then
                    let '(eneg, t3) :=
                      match t' with
                      | s :: t'' =>
                          if (s =? 45)%N then (true, t'')
                          else if (s =? 43)%N then (false, t'')
                          else (false, t')
                      | [] => (false, t')
                      end in
                    let '(ep, t4) := take_digits t3 in
                    match ep with
                    | [] => None
                    | _ => Some ((if eneg then - digits_val ep else digits_val ep), t4)
                    end
                  else Some (0, t2)
              | [] => Some (0, t2)
              end in
            match expo with
            | None => None
            | Some (ev, t5) =>
                let m := digits_val (ip ++ fp) in
                Some (JNum (if neg then - m else m)
                           (ev - Z.of_nat (length fp)), t5)
            end
        end
  end.

(** Values, the members of an object after its opening brace and the
    elements of an array after its opening bracket. [fuel] goes down by
    one at each call between the three functions, and at most two such
    calls happen per code unit read (an opening bracket, then its first
    element), so the [2 * length t + 2] of [JSON_parse] is all the
    fuel the parser can use (lemma [JSON_parse_fuel]). *)
Fixpoint parse_value (fuel : nat) (t : jsstring) : option (JsValue * jsstring) :=
  match fuel with
  | O => None
  | S fuel' =>
      match skip_ws t with
      | [] => None
      | c :: t1 =>
          if (c =? 123)%N then
            match skip_ws t1 with
            | d :: t2 =>
                if (d =? 125)%N then Some (JObj [], t2)
                else
                  match parse_members fuel' (d :: t2) [] with
                  | Some (ps, rest) => Some (JObj ps, rest)
                  | None => None
                  end
            | [] => None
            end
          else if (c =? 91)%N then
            match skip_ws t1 with
            | d :: t2 =>
                if (d =? 93)%N then Some (JArr [], t2)
                else
                  match parse_elements fuel' (d :: t2) [] with
                  | Some (vs, rest) => Some (JArr vs, rest)
                  | None => None
                  end
            | [] => None
            end
          else if (c =? 34)%N then
            match parse_chars t1 with
            | Some (cs, rest) => Some (JStr cs, rest)
            | None => None
            end
          else if (c =? 110)%N then
            match expect_all (u16 "ull") t1 with
            | Some rest => Some (JNull, rest)
            | None => None
            end
          else if (c =? 116)%N then
            match expect_all (u16 "rue") t1 with
            | Some rest => Some (JBool true, rest)
            | None => None
            end
          else if (c =? 102)%N then
            match expect_all (u16 "alse") t1 with
            | Some rest => Some (JBool false, rest)
            | None => None
            end
          else parse_number (c :: t1)
      end
  end
with parse_members (fuel : nat) (t : jsstring) (acc : list (jsstring * JsValue))
  : option (list (jsstring * JsValue) * jsstring) :=
  match fuel with
  | O => None
  | S fuel' =>
      match expect 34 (skip_ws t) with
      | None => None
      | Some t1 =>
          match parse_chars t1 with
          | None => None
          | Some (k, t2) =>
              match expect 58 (skip_ws t2) with
              | None => None
              | Some t3 =>
                  match parse_value fuel' t3 with
                  | None => None
                  | Some (v, t4) =>
                      match skip_ws t4 with
                      | c :: t5 =>
                          if (c =? 44)%N
                          then parse_members fuel' t5 (acc ++ [(k, v)])
                          else if (c =? 125)%N
                          then Some (acc ++ [(k, v)], t5)
                          else None
                      | [] => None
                      end
                  end
              end
          end
      end
  end
with parse_elements (fuel : nat) (t : jsstring) (acc : list JsValue)
  : option (list JsValue * jsstring) :=
  match fuel with
  | O => None
  | S fuel' =>
      match parse_value fuel' t with
      | None => None
      | Some (v, t1) =>
          match skip_ws t1 with
          | c :: t2 =>
              if (c =? 44)%N
              then parse_elements fuel' t2 (acc ++ [v])
              else if (c =? 93)%N
              then Some (acc ++ [v], t2)
              else None
          | [] => None
          end
      end
  end.

(** [JSON.parse(t)]: the value of the single JSON text [t], or [None]
    where [JSON.parse] throws a SyntaxError. *)
Definition JSON_parse (t : jsstring) : option JsValue :=
  match parse_value (2 * length t + 2) t with
  | Some (v, rest) =>
      match skip_ws rest with
      | [] => Some v
      | _ => None
      end
  | None => None
  end.

End JSON.
Import JSON.

(* ===================================================================== *)
(** ** The application: sessions, [agentReply], the voice webhooks *)
(* ===================================================================== *)

Module App.

(** *** Configuration read from the environment *)

(** [OFFICE_TRANSFER_NUMBER] is a string, or [None] when the variable
    is not set. [MAX_TURNS] is the integer that the test
    [session.turns >= Number(MAX_TURNS)] compares the count with: the
    number [Number(MAX_TURNS)] rounded up, since the count is an integer
    ([ge_number] below, and the lemma [ge_number_ceiling]); it is 6
    unless the environment sets the variable. A variable whose number is
    not finite (the test then holds never, or always) has no such
    integer and is not covered. *)
Record Config : Type := {
  OFFICE_TRANSFER_NUMBER : option jsstring;
  MAX_TURNS : Z
}.


(** *** The session store *)

(** A session object [{ turns, name, preferred_time, booked }]; a
    property that was never assigned reads [undefined]. *)
Record Session : Type := {
  turns : Z;
  name : JsValue;
  preferred_time : JsValue;
  booked : JsValue
}.

(** The object literal [{ turns: 0 }]. *)
Definition new_session : Session :=
  {| turns := 0; name := JUndefined; preferred_time := JUndefined;
     booked := JUndefined |}.

(** A call identifier: the form field [CallSid], a string, or [None]
    when the request carries none ([undefined] is a legal [Map] key). *)
Abbreviation CallId := (option jsstring).

(** [const sessions = new Map()]. *)
Abbreviation Sessions := (gmap CallId Session).

(** *** TwiML documents *)

(** The elements the handlers put in a response. [SayNothing] is a
    [<Say>] element without text: nothing is spoken for it. *)
Inductive Verb : Type :=
  | Say (text : jsstring)
  | SayNothing
  | Hangup
  | Redirect (url : jsstring)
  | Dial (timeout : Z) (action : jsstring) (number : jsstring)
  | Gather (action : jsstring) (prompt : jsstring).

(** *** The handler monad

    A handler runs over the session map, the [VoiceResponse] under
    construction, the log of calls made to the extraction service and
    the body passed to [res.send], and completes normally or throws. *)
Record HState : Type := {
  hs_sessions : Sessions;
  hs_twiml : list Verb;
  hs_calls : list jsstring;
  hs_sent : option (list Verb)
}.

Definition M (A : Type) : Type := HState -> Completion A * HState.

Definition ret {A} (a : A) : M A := fun h => (Normal a, h).

Definition bind {A B} (m : M A) (k : A -> M B) : M B :=
  fun h =>
    match m h with
    | (Normal a, h') => k a h'
    | (Thrown e, h') => (Thrown e, h')
    end.

Definition lift {A} (c : Completion A) : M A := fun h => (c, h).

(** [try { body } catch (err) { handler }]: the effects of [body] up to
    the throw stay. *)
Definition try_catch {A} (body : M A) (handler : JsError -> M A) : M A :=
  fun h =>
    match body h with
    | (Normal a, h') => (Normal a, h')
    | (Thrown e, h') => handler e h'
    end.

#[global] Instance M_ret : MRet M := @ret.
#[global] Instance M_bind : MBind M := fun A B k m => bind m k.

Definition when (b : bool) (m : M unit) : M unit := if b then m else ret tt.

(** Append an element to the response: [twiml.hangup()],
    [twiml.redirect(url)], [twiml.gather(...)], and [twiml.say(line)]
    for the lines written in the source, which are strings of legal
    characters ([fixed_lines_are_legal] below). *)
Definition emit (v : Verb) : M unit :=
  fun h => (Normal tt,
            {| hs_sessions := hs_sessions h; hs_twiml := hs_twiml h ++ [v];
               hs_calls := hs_calls h; hs_sent := hs_sent h |}).

(** *** [twiml.say] and [dial.number] of the twilio library

    The text of an element goes through the library's XML builder, which
    throws on a string that holds a code unit outside the [Char]
    production of XML 1.0: a control character other than tab, line
    feed and carriage return, U+FFFE, U+FFFF, or a surrogate that is not
    part of a pair. *)
Definition is_high_surrogate (c : N) : bool := ((55296 <=? c) && (c <=? 56319))%N.
Definition is_low_surrogate (c : N) : bool := ((56320 <=? c) && (c <=? 57343))%N.

Definition legal_unit (c : N) : bool :=
  ((c =? 9) || (c =? 10) || (c =? 13) || (32 <=? c) && (c <=? 65533))%N.

Fixpoint xml_legal (t : jsstring) : bool :=
  match t with
  | [] => true
  | c :: t' =>
      if is_high_surrogate c
      then match t' with
           | d :: t'' => is_low_surrogate d && xml_legal t''
           | [] => false
           end
      else negb (is_low_surrogate c) && legal_unit c && xml_legal t'
  end.

Arguments xml_legal : simpl never.

(** What [twiml.say(arg)] comes to: it throws, or it appends a [<Say>]
    element, with a text or without one. *)
Inductive SayResult : Type :=
  | Throws
  | Speaks (text : jsstring)
  | Silent.

(** The library's treatment of an argument that is not a string: a
    parameter, the library being no part of the sources. (twilio takes
    such an argument for the attributes of the element, so that an
    object gives a [<Say>] without text.) The properties below hold for
    every such treatment. *)
Definition Library : Type := JsValue -> SayResult.

Definition say_result (lib : Library) (arg : JsValue) : SayResult :=
  match arg with
  | JStr text => if xml_legal text then Speaks text else Throws
  | _ => lib arg
  end.

(** [twiml.say(arg)]. *)
Definition twiml_say (lib : Library) (arg : JsValue) : M unit :=
  match say_result lib arg with
  | Throws => lift (Thrown XmlError)
  | Speaks text => emit (Say text)
  | Silent => emit SayNothing
  end.

(** [twiml.dial({ timeout, action, method: 'POST' }).number(number)] for
    a string [number]. *)
Definition twiml_dial_number (timeout : Z) (action number : jsstring) : M unit :=
  if xml_legal number
  then emit (Dial timeout action number)
  else lift (Thrown XmlError).

(** [res.type('text/xml').send(twiml.toString())]. *)
Definition send : M unit :=
  fun h => (Normal tt,
            {| hs_sessions := hs_sessions h; hs_twiml := hs_twiml h;
               hs_calls := hs_calls h; hs_sent := Some (hs_twiml h) |}).

(** [function s(callSid)]: insert [{ turns: 0 }] when the key is absent.
    The object returned is the one held by the map, so the handlers
    below read and write it in the map, through its key. *)
Definition s (callSid : CallId) : M CallId :=
  fun h =>
    (Normal callSid,
     {| hs_sessions :=
          match hs_sessions h !! callSid with
          | Some _ => hs_sessions h
          | None => <[callSid := new_session]> (hs_sessions h)
          end;
        hs_twiml := hs_twiml h; hs_calls := hs_calls h;
        hs_sent := hs_sent h |}).

(** The session object behind a reference obtained from [s]. *)
Definition deref (m : Sessions) (r : CallId) : Session :=
  default new_session (m !! r).

Definition read (r : CallId) : M Session :=
  fun h => (Normal (deref (hs_sessions h) r), h).

Definition write (r : CallId) (f : Session -> Session) : M unit :=
  fun h =>
    (Normal tt,
     {| hs_sessions := <[r := f (deref (hs_sessions h) r)]> (hs_sessions h);
        hs_twiml := hs_twiml h; hs_calls := hs_calls h;
        hs_sent := hs_sent h |}).

Definition incr_turns (x : Session) : Session :=
  {| turns := turns x + 1; name := name x;
     preferred_time := preferred_time x; booked := booked x |}.

Definition set_name (v : JsValue) (x : Session) : Session :=
  {| turns := turns x; name := v;
     preferred_time := preferred_time x; booked := booked x |}.

Definition set_preferred_time (v : JsValue) (x : Session) : Session :=
  {| turns := turns x; name := name x;
     preferred_time := v; booked := booked x |}.

Definition set_booked (v : JsValue) (x : Session) : Session :=
  {| turns := turns x; name := name x;
     preferred_time := preferred_time x; booked := v |}.

(** *** [agentReply] *)

(** What [openai.responses.create] does when it is awaited: it rejects
    (network error, timeout, API error) or resolves to a response whose
    [output_text] is given. *)
Inductive ServiceOutcome : Type :=
  | ServiceRejects
  | ServiceResolves (output_text : JsValue).

Definition FALLBACK_SAY : jsstring :=
  u16 "Thanks. What day and time works best for you?".

(** The object returned by the [catch] clause of [agentReply]. *)
Definition FALLBACK : JsValue :=
  JObj [(u16 "say", JStr FALLBACK_SAY); (u16 "extracted", JObj [])].

(** [a >= 0 && b >= 0 ? text.slice(a, b + 1) : text]. *)
Definition raw_of (text : jsstring) : jsstring :=
  let a := indexOf text LBRACE in
  let b := lastIndexOf text RBRACE in
  if (0 <=? a) && (0 <=? b) then slice text a (b + 1) else text.

(** The [try] block of [agentReply]. *)
Definition agentReply_try (o : ServiceOutcome) : Completion JsValue :=
  match o with
  | ServiceRejects => Thrown ServiceError
  | ServiceResolves output_text =>
      match call_trim (js_or output_text (JStr [])) with
      | Thrown e => Thrown e
      | Normal text =>
          match JSON_parse (raw_of text) with
          | Some v => Normal v
          | None => Thrown SyntaxError
          end
      end
  end.

(** [async function agentReply(userText, session)], awaited: the value
    of the [try] block, or [FALLBACK] from the [catch] clause. The reply
    of the service does not depend on the model, so it is the parameter
    [o]; [userText] only travels to the service. *)
Definition agentReply (userText : jsstring) (o : ServiceOutcome)
  : Completion JsValue :=
  match agentReply_try o with
  | Normal v => Normal v
  | Thrown _ => Normal FALLBACK
  end.

(** [await agentReply(speech, session)] inside a handler: the call is
    logged. *)
Definition await_agentReply (userText : jsstring) (o : ServiceOutcome)
  : M JsValue :=
  fun h =>
    (agentReply userText o,
     {| hs_sessions := hs_sessions h; hs_twiml := hs_twiml h;
        hs_calls := hs_calls h ++ [userText]; hs_sent := hs_sent h |}).

(** *** Requests and the lines spoken *)

(** The fields of [req.body] the handlers read; an absent field is
    [JUndefined]. *)
Record Request : Type := {
  CallSid : CallId;
  SpeechResult : JsValue;
  DialCallStatus : JsValue
}.

(** U+2019, the apostrophe of the spoken lines. *)
Definition APOS : jsstring := [8217%N].

Definition URL_AFTER_TRANSFER : jsstring := u16 "/voice/after-transfer-attempt".
Definition URL_GATHER : jsstring := u16 "/voice/gather".
Definition URL_HANDLE : jsstring := u16 "/voice/handle".

Definition SAY_TIED_UP : jsstring :=
  u16 "The team is tied up. I can schedule you right now.".
Definition SAY_CLOSING : jsstring :=
  u16 "Thanks. I" ++ APOS ++ u16 "ll have the team call you back shortly. Goodbye.".
Definition SAY_ASK_BOTH : jsstring :=
  u16 "Tell me your name and the best day and time to come in.".
Definition SAY_ASK_NAME : jsstring := u16 "What is your name?".
Definition SAY_ASK_TIME : jsstring := u16 "What day and time works best?".
Definition SAY_ONE_MOMENT : jsstring := u16 "One moment.".
Definition SAY_NO_CATCH : jsstring :=
  u16 "I didn" ++ APOS ++ u16 "t catch that.".
Definition SAY_OKAY : jsstring := u16 "Okay.".
Definition SAY_ALL_SET : jsstring :=
  u16 "You" ++ APOS ++ u16 "re all set. We" ++ APOS
      ++ u16 "ll text you to confirm. Goodbye.".
Definition SAY_APOLOGY : jsstring :=
  u16 "I apologize, but something went wrong. A team member will call you back shortly.".

(** [v === 'literal']. *)
Definition strict_eq_str (v : JsValue) (t : jsstring) : bool :=
  match v with
  | JStr u => jsstring_eqb u t
  | _ => false
  end.

(** *** POST /voice/initial *)

(** In the branch without a transfer number the source reads
    [twiml.saytwiml.say(...)]: a [VoiceResponse] has no property
    [saytwiml], so reading [.say] of it throws before anything is
    spoken. The test [if (OFFICE_TRANSFER_NUMBER)] holds for a string
    that is not empty. *)
Definition initial (cfg : Config) (req : Request) : M unit :=
  let callSid := CallSid req in
  _ ← s callSid;
  (match OFFICE_TRANSFER_NUMBER cfg with
   | Some (c :: number) =>
       twiml_dial_number 10 URL_AFTER_TRANSFER (c :: number)
   | _ =>
       let twiml_saytwiml := JUndefined in
       _ ← lift (get_prop twiml_saytwiml (u16 "say"));
       emit (Redirect URL_GATHER)
   end);;
  send.

(** *** POST /voice/after-transfer-attempt *)

Definition after_transfer_attempt (req : Request) : M unit :=
  let status := DialCallStatus req in
  (if strict_eq_str status (u16 "completed")
   then emit Hangup
   else emit (Say SAY_TIED_UP);; emit (Redirect URL_GATHER));;
  send.

(** *** POST /voice/gather *)

(** The prompt chosen from what the session already holds. *)
Definition gather_prompt (x : Session) : jsstring :=
  if negb (truthy (name x)) && negb (truthy (preferred_time x))
  then SAY_ASK_BOTH
  else if negb (truthy (name x)) then SAY_ASK_NAME
  else if negb (truthy (preferred_time x)) then SAY_ASK_TIME
  else SAY_ONE_MOMENT.

Definition gather (cfg : Config) (req : Request) : M unit :=
  let callSid := CallSid req in
  session ← s callSid;
  x ← read session;
  if MAX_TURNS cfg <=? turns x
  then emit (Say SAY_CLOSING);; emit Hangup;; send
  else
    x ← read session;
    emit (Gather URL_HANDLE (gather_prompt x));;
    emit (Redirect URL_GATHER);;
    send.

(** *** POST /voice/handle *)

(** The [try] block of the handler. *)
Definition handle_try (lib : Library) (req : Request) (o : ServiceOutcome)
  : M unit :=
  let callSid := CallSid req in
  session ← s callSid;
  speech ← lift (call_trim (js_or (SpeechResult req) (JStr [])));
  write session incr_turns;;
  if negb (truthy (JStr speech))
  then
    emit (Say SAY_NO_CATCH);;
    emit (Redirect URL_GATHER);;
    send
  else
    cmd ← await_agentReply speech o;
    cmd_extracted ← lift (get_prop cmd (u16 "extracted"));
    let ex := js_or cmd_extracted (JObj []) in
    ex_name ← lift (get_prop ex (u16 "name"));
    when (truthy ex_name) (write session (set_name ex_name));;
    ex_preferred_time ← lift (get_prop ex (u16 "preferred_time"));
    when (truthy ex_preferred_time)
         (write session (set_preferred_time ex_preferred_time));;
    x ← read session;
    when (truthy (name x) && truthy (preferred_time x))
         (write session (set_booked (JBool true)));;
    cmd_say ← lift (get_prop cmd (u16 "say"));
    twiml_say lib (js_or cmd_say (JStr SAY_OKAY));;
    x ← read session;
    (if truthy (booked x)
     then emit (Say SAY_ALL_SET);; emit Hangup
     else emit (Redirect URL_GATHER));;
    send.

Definition handle_catch (err : JsError) : M unit :=
  emit (Say SAY_APOLOGY);;
  emit Hangup;;
  send.

Definition handle (lib : Library) (req : Request) (o : ServiceOutcome)
  : M unit :=
  try_catch (handle_try lib req o) handle_catch.

(** *** One webhook turn *)

(** What the handler sends back to the telephony provider: the TwiML
    passed to [res.send], or nothing when it threw before sending (what
    the provider then receives is up to Express). *)
Inductive Reply : Type :=
  | Responded (doc : list Verb)
  | Unanswered.

Record Outcome : Type := {
  out_sessions : Sessions;
  out_reply : Reply;
  out_calls : list jsstring
}.

(** Run a handler on a fresh [VoiceResponse] against the session map. *)
Definition run (m : M unit) (st : Sessions) : Outcome :=
  let '(_, h) :=
    m {| hs_sessions := st; hs_twiml := []; hs_calls := []; hs_sent := None |} in
  {| out_sessions := hs_sessions h;
     out_reply := match hs_sent h with
                  | Some doc => Responded doc
                  | None => Unanswered
                  end;
     out_calls := hs_calls h |}.

(** An inbound webhook; a speech turn comes with what the extraction
    service does if it is called during the turn. *)
Inductive Webhook : Type :=
  | VoiceInitial (req : Request)
  | VoiceAfterTransferAttempt (req : Request)
  | VoiceGather (req : Request)
  | VoiceHandle (req : Request) (o : ServiceOutcome).

Definition turn (lib : Library) (cfg : Config) (w : Webhook) (st : Sessions)
  : Outcome :=
  match w with
  | VoiceInitial req => run (initial cfg req) st
  | VoiceAfterTransferAttempt req => run (after_transfer_attempt req) st
  | VoiceGather req => run (gather cfg req) st
  | VoiceHandle req o => run (handle lib req o) st
  end.

(** The session map after a sequence of webhooks, oldest first. *)
Fixpoint turns_from (lib : Library) (cfg : Config) (ws : list Webhook)
  (st : Sessions) : Sessions :=
  match ws with
  | [] => st
  | w :: ws' => turns_from lib cfg ws' (out_sessions (turn lib cfg w st))
  end.

(** *** The abstract response *)

Inductive Action : Type := LISTEN | TRANSFER | HANGUP.

(** The lines spoken, in order. *)
Fixpoint speak (doc : list Verb) : list jsstring :=
  match doc with
  | [] => []
  | Say text :: doc' => text :: speak doc'
  | Gather _ prompt :: doc' => prompt :: speak doc'
  | _ :: doc' => speak doc'
  end.

(** What the call does after the spoken lines: the first verb that is
    not [Say] decides. A redirect leads to /voice/gather, the listening
    endpoint. *)
Fixpoint nextAction (doc : list Verb) : option Action :=
  match doc with
  | [] => None
  | Say _ :: doc' => nextAction doc'
  | SayNothing :: doc' => nextAction doc'
  | Hangup :: _ => Some HANGUP
  | Redirect _ :: _ => Some LISTEN
  | Dial _ _ _ :: _ => Some TRANSFER
  | Gather _ _ :: _ => Some LISTEN
  end.

End App.
Import App.

(* ===================================================================== *)
(** ** Derived forms

    Closed forms of the handlers and the vocabulary of the properties;
    the lemmas of the next part relate them to the handlers above. *)
(* ===================================================================== *)

(** [v.k] where the read is known not to throw. *)
Definition prop (v : JsValue) (key : jsstring) : JsValue :=
  match get_prop v key with
  | Normal w => w
  | Thrown _ => JUndefined
  end.

(** What lines 177-181 of the handler do to the session, given
    [ex = cmd.extracted || {}]. *)
Definition merge_extracted (ex : JsValue) (x : Session) : Session :=
  let n := prop ex (u16 "name") in
  let x2 := if truthy n then set_name n x else x in
  let p := prop ex (u16 "preferred_time") in
  let x3 := if truthy p then set_preferred_time p x2 else x2 in
  if truthy (name x3) && truthy (preferred_time x3)
  then set_booked (JBool true) x3
  else x3.

Definition APOLOGY_DOC : list Verb := [Say SAY_APOLOGY; Hangup].

(** Lines 183-198: the document sent once the session [x'] has been
    updated, [line] being [cmd.say || "Okay."]. When [twiml.say] throws
    on the line the response is still empty, and the [catch] clause
    makes it the apology. *)
Definition reply_doc (lib : Library) (line : JsValue) (x' : Session)
  : list Verb :=
  let rest := if truthy (booked x')
              then [Say SAY_ALL_SET; Hangup]
              else [Redirect URL_GATHER] in
  match say_result lib line with
  | Throws => APOLOGY_DOC
  | Speaks text => Say text :: rest
  | Silent => SayNothing :: rest
  end.

(** The effect of one /voice/handle turn on the session [x] of the
    call, the document sent and the calls made to the service. *)
Definition handle_closed (lib : Library) (req : Request) (o : ServiceOutcome)
  (x : Session) : Session * list Verb * list jsstring :=
  match call_trim (js_or (SpeechResult req) (JStr [])) with
  | Thrown _ => (x, APOLOGY_DOC, [])
  | Normal speech =>
      if negb (truthy (JStr speech))
      then (incr_turns x,
            [Say SAY_NO_CATCH; Redirect URL_GATHER], [])
      else
        match agentReply speech o with
        | Thrown _ => (incr_turns x, APOLOGY_DOC, [speech])
        | Normal cmd =>
            match get_prop cmd (u16 "extracted") with
            | Thrown _ => (incr_turns x, APOLOGY_DOC, [speech])
            | Normal ce =>
                let x' := merge_extracted (js_or ce (JObj [])) (incr_turns x) in
                (x',
                 reply_doc lib (js_or (prop cmd (u16 "say")) (JStr SAY_OKAY)) x',
                 [speech])
            end
        end
  end.

(** What a webhook does to the session of call [k]. *)
Definition session_after (lib : Library) (w : Webhook) (k : CallId)
  (x : Session) : Session :=
  match w with
  | VoiceHandle req o =>
      if decide (CallSid req = k) then (handle_closed lib req o x).1.1 else x
  | _ => x
  end.

(** The object [ex = cmd.extracted || {}] of a speech turn, when the
    turn gets as far as line 177. *)
Definition extraction_of (req : Request) (o : ServiceOutcome) : option JsValue :=
  match call_trim (js_or (SpeechResult req) (JStr [])) with
  | Thrown _ => None
  | Normal speech =>
      if negb (truthy (JStr speech)) then None
      else
        match agentReply speech o with
        | Thrown _ => None
        | Normal cmd =>
            match get_prop cmd (u16 "extracted") with
            | Thrown _ => None
            | Normal ce => Some (js_or ce (JObj []))
            end
        end
  end.

(** The value a webhook reports for [field] of call [k]: [ex.field] on
    a speech turn of that call that reaches the merge, [undefined]
    otherwise. *)
Definition reported (field : jsstring) (k : CallId) (w : Webhook) : JsValue :=
  match w with
  | VoiceHandle req o =>
      if decide (CallSid req = k)
      then match extraction_of req o with
           | Some ex => prop ex field
           | None => JUndefined
           end
      else JUndefined
  | _ => JUndefined
  end.

Definition populated (x : Session) : bool :=
  truthy (name x) && truthy (preferred_time x).

(** The session invariant: [booked] is truthy exactly when both fields
    are. *)
Definition booked_iff_populated (x : Session) : Prop :=
  truthy (booked x) = populated x.

(** The number of webhooks of [ws] at which [booked] of call [k] goes
    from falsy to truthy, starting from the map [st]. *)
Fixpoint booked_flips (lib : Library) (cfg : Config) (ws : list Webhook)
  (st : Sessions) (k : CallId) : nat :=
  match ws with
  | [] => 0
  | w :: ws' =>
      let st' := out_sessions (turn lib cfg w st) in
      (if negb (truthy (booked (deref st k))) && truthy (booked (deref st' k))
       then 1 else 0)%nat
      + booked_flips lib cfg ws' st' k
  end%nat.

(** The value of a field after the webhooks [ws], given what each of
    them reports: a truthy report replaces the value held. *)
Definition latest_truthy (field : jsstring) (k : CallId)
  (ws : list Webhook) (v0 : JsValue) : JsValue :=
  fold_left (fun acc w => js_or (reported field k w) acc) ws v0.

(** A value a field can hold when every report is a string or nullish. *)
Definition unset_or_nonempty_string (v : JsValue) : Prop :=
  v = JUndefined \/ exists c t, v = JStr (c :: t).

Definition string_or_nullish (v : JsValue) : bool :=
  match v with
  | JUndefined | JNull | JStr _ => true
  | _ => false
  end.

(* ===================================================================== *)
(** ** Sample requests *)
(* ===================================================================== *)

Module Samples.

(** A library that takes every argument of [twiml.say] that is not a
    string for the attributes of the element, and so says nothing. *)
Definition lib : Library := fun _ => Silent.

(** A library that throws on every argument that is not a string. *)
Definition strict_lib : Library := fun _ => Throws.

Definition cfg : Config :=
  {| OFFICE_TRANSFER_NUMBER := None; MAX_TURNS := 6 |}.

Definition cfg_transfer : Config :=
  {| OFFICE_TRANSFER_NUMBER := Some (u16 "+15550100"); MAX_TURNS := 6 |}.


Definition CA1 : CallId := Some (u16 "CA1").

(** A speech turn of call [CA1] carrying [speech]. *)
Definition said (speech : string) : Request :=
  {| CallSid := CA1; SpeechResult := JStr (u16 speech);
     DialCallStatus := JUndefined |}.

(** A speech turn of call [CA1] on which nothing was transcribed. *)
Definition silence : Request :=
  {| CallSid := CA1; SpeechResult := JUndefined;
     DialCallStatus := JUndefined |}.

(** The transfer-outcome callback of call [CA1] with a status. *)
Definition dialed (status : string) : Request :=
  {| CallSid := CA1; SpeechResult := JUndefined;
     DialCallStatus := JStr (u16 status) |}.

(** The service answering with the text [t]. *)
Definition answers (t : string) : ServiceOutcome :=
  ServiceResolves (JStr (u16 t)).

Definition DQ : string := String (ascii_of_nat 34) EmptyString.

(** The text [{"say":"<say>","extracted":{"<field>":<json>}}]. *)
Definition envelope (say field json : string) : string :=
  ("{" ++ DQ ++ "say" ++ DQ ++ ":" ++ DQ ++ say ++ DQ ++ ","
       ++ DQ ++ "extracted" ++ DQ ++ ":{" ++ DQ ++ field ++ DQ ++ ":"
       ++ json ++ "}}")%string.

Definition quoted (t : string) : string := (DQ ++ t ++ DQ)%string.

End Samples.

Module ScenarioA.
Import Samples.

(** The caller gives both fields at once. *)
Definition both_fields : Webhook :=
  VoiceHandle (said "My name is Dana and I'd like Tuesday at 3pm")
    (answers ("{" ++ DQ ++ "say" ++ DQ ++ ":" ++ quoted "Great, Dana"
              ++ "," ++ DQ ++ "extracted" ++ DQ ++ ":{"
              ++ DQ ++ "name" ++ DQ ++ ":" ++ quoted "Dana" ++ ","
              ++ DQ ++ "preferred_time" ++ DQ ++ ":" ++ quoted "Tuesday at 3pm"
              ++ "}}")%string).

End ScenarioA.

Module Renaming.
Import Samples.

(** Two speech turns of one call; the service reports a name on each. *)
Definition first_turn : Webhook :=
  VoiceHandle (said "Dana") (answers (envelope "Hi Dana" "name" (quoted "Dana"))).
Definition second_turn : Webhook :=
  VoiceHandle (said "Sorry, Dan") (answers (envelope "Hi Dan" "name" (quoted "Dan"))).

End Renaming.

Module OddReports.
Import Samples.

(** The service reports the number 42 as the name. *)
Definition numeric_name : Webhook :=
  VoiceHandle (said "forty-two") (answers (envelope "Hi" "name" "42")).

(** The service reports the empty string as the name, after a turn that
    reported "Dana". *)
Definition empty_name : Webhook :=
  VoiceHandle (said "hm") (answers (envelope "Hi" "name" (quoted ""))).

End OddReports.

Module OverBudget.
Import Samples.

(** Six speech turns on which nothing was transcribed. *)
Definition six_silent_turns : list Webhook :=
  repeat (VoiceHandle silence ServiceRejects) 6.

Definition st6 : Sessions := turns_from lib cfg six_silent_turns ∅.

(** A seventh speech turn, with speech, answered by the service. *)
Definition seventh_turn : Webhook :=
  VoiceHandle (said "Dana") (answers (envelope "Hi Dana" "name" (quoted "Dana"))).

End OverBudget.

Module InternalError.
Import Samples.

(** The service answers with the JSON text [null]: [cmd] is [null] and
    reading [cmd.extracted] throws. *)
Definition null_reply : Webhook := VoiceHandle (said "Dana") (answers "null").

(** The service gives both fields and a line that ends in U+0001, which
    [twiml.say] refuses. *)
Definition unspeakable_booking : Webhook :=
  VoiceHandle (said "Dana, Tuesday at 3pm")
    (answers ("{" ++ DQ ++ "say" ++ DQ ++ ":" ++ quoted "Hi\u0001"
              ++ "," ++ DQ ++ "extracted" ++ DQ ++ ":{"
              ++ DQ ++ "name" ++ DQ ++ ":" ++ quoted "Dana" ++ ","
              ++ DQ ++ "preferred_time" ++ DQ ++ ":" ++ quoted "Tuesday at 3pm"
              ++ "}}")%string).

(** The service answers with an object as its line. *)
Definition object_line : Webhook :=
  VoiceHandle (said "Dana")
    (answers ("{" ++ DQ ++ "say" ++ DQ ++ ":{}}")%string).

End InternalError.

Module Replies.
Import Samples.

(** A JSON object without [say]. *)
Definition no_say : string := ("{" ++ DQ ++ "extracted" ++ DQ ++ ":{}}")%string.

(** Prose without braces. *)
Definition prose : string := "Sure, what time works?".

End Replies.

(* ===================================================================== *)
(** ** The rest of [src/app.js]: start-up and the outbound call *)
(* ===================================================================== *)

Module Outbound.

(** The variables destructured from [process.env]; each is a string or
    [undefined]. *)
Record Env : Type := {
  BASE_URL : JsValue;
  TWILIO_ACCOUNT_SID : JsValue;
  TWILIO_AUTH_TOKEN : JsValue;
  TWILIO_FROM_NUMBER : JsValue;
  OPENAI_API_KEY : JsValue
}.

Definition MSG_BASE_URL : jsstring := u16 "Missing BASE_URL (public https URL).".
Definition MSG_TWILIO : jsstring := u16 "Missing Twilio env vars.".
Definition MSG_OPENAI : jsstring := u16 "Missing OPENAI_API_KEY.".

(** Lines 22-24: the message of the [Error] thrown at start-up, or
    [None] when the three checks pass. *)
Definition startup (env : Env) : option jsstring :=
  if negb (truthy (BASE_URL env)) then Some MSG_BASE_URL
  else if negb (truthy (TWILIO_ACCOUNT_SID env))
          || negb (truthy (TWILIO_AUTH_TOKEN env))
          || negb (truthy (TWILIO_FROM_NUMBER env))
  then Some MSG_TWILIO
  else if negb (truthy (OPENAI_API_KEY env)) then Some MSG_OPENAI
  else None.

(** The argument of [twilioClient.calls.create]. *)
Record CallRequest : Type := {
  cr_to : JsValue;
  cr_from : JsValue;
  cr_url : jsstring;
  cr_method : jsstring
}.

(** What [twilioClient.calls.create] does when awaited: it rejects, or
    resolves to a call whose [sid] is given. *)
Inductive CreateOutcome : Type :=
  | CreateRejects
  | CreateResolves (sid : JsValue).

(** How POST /call ends: the handler sends a JSON body with a status,
    or the awaited promise rejects and with it the handler, which has
    no [catch] and has sent nothing. What the client receives in that
    case is up to Express, which is not part of the sources. *)
Inductive HandlerEnd : Type :=
  | Json (status : Z) (body : JsValue)
  | HandlerRejects.

Definition MSG_MISSING_TO : jsstring :=
  u16 "Missing 'to' (E.164 phone number).".

Definition URL_INITIAL : jsstring := u16 "/voice/initial".

(** POST /call, for a base URL that passed the start-up check: how the
    handler ends and the calls placed. *)
Definition post_call (base_url : jsstring) (from : JsValue)
  (to : JsValue) (create : CreateOutcome) : HandlerEnd * list CallRequest :=
  if negb (truthy to)
  then (Json 400 (JObj [(u16 "error", JStr MSG_MISSING_TO)]), [])
  else
    let request :=
      {| cr_to := to; cr_from := from;
         cr_url := base_url ++ URL_INITIAL;
         cr_method := u16 "POST" |} in
    match create with
    | CreateRejects => (HandlerRejects, [request])
    | CreateResolves sid =>
        (Json 200 (JObj [(u16 "ok", JBool true); (u16 "callSid", sid)]),
         [request])
    end.

End Outbound.

(* ===================================================================== *)
(** ** Call flows over [src/app.js] *)
(* ===================================================================== *)

(** The call a webhook belongs to; the transfer-outcome callback reads
    no call identifier. *)
Definition call_of (w : Webhook) : option CallId :=
  match w with
  | VoiceInitial req | VoiceGather req | VoiceHandle req _ => Some (CallSid req)
  | VoiceAfterTransferAttempt _ => None
  end.

(** 1 for a speech turn of call [k] that gets past the trim of its
    speech (and so executes [session.turns += 1]), 0 otherwise. *)
Definition counted (k : CallId) (w : Webhook) : Z :=
  match w with
  | VoiceHandle req _ =>
      if decide (CallSid req = k)
      then match call_trim (js_or (SpeechResult req) (JStr [])) with
           | Normal _ => 1
           | Thrown _ => 0
           end
      else 0
  | _ => 0
  end.


(** Every line of a document is a non-empty string. *)
Definition speaks_strings (doc : list Verb) : Prop :=
  Forall (fun line => exists c t, line = c :: t) (speak doc).


Module Chatty.
Import Samples.

(** A reply that wraps its JSON object in prose. *)
Definition pre : string := "Sure! ".
Definition mid : string := (DQ ++ "say" ++ DQ ++ ":" ++ DQ ++ "Hi" ++ DQ)%string.
Definition post : string := " Anything else?".
Definition reply : string := (pre ++ "{" ++ mid ++ "}" ++ post)%string.

End Chatty.

(* ===================================================================== *)
(** ** The draft [src/unnamed/part_000] *)
(* ===================================================================== *)

(** The draft shares the session store, /voice/initial,
    /voice/after-transfer-attempt and /voice/gather with [src/app.js];
    its [agentReply] answers [null] on failure and its /voice/handle
    tests the answer before using it. *)
Module Draft000.

(** [typeof v === "string"]. *)
Definition typeof_string (v : JsValue) : bool :=
  match v with
  | JStr _ => true
  | _ => false
  end.

(** The [try] block of [agentReply] (lines 48-69). *)
Definition agentReply_try (o : ServiceOutcome) : Completion JsValue :=
  match o with
  | ServiceRejects => Thrown ServiceError
  | ServiceResolves output_text =>
      match call_trim (js_or output_text (JStr [])) with
      | Thrown e => Thrown e
      | Normal text =>
          if negb (truthy (JStr text)) then Normal JNull
          else
            let start := indexOf text LBRACE in
            let stop := lastIndexOf text RBRACE in
            if (start =? -1) || (stop =? -1) then Normal JNull
            else
              match JSON_parse (slice text start (stop + 1)) with
              | None => Thrown SyntaxError
              | Some parsed =>
                  match get_prop parsed (u16 "say") with
                  | Thrown e => Thrown e
                  | Normal parsed_say =>
                      if negb (truthy parsed_say) then Normal JNull
                      else Normal parsed
                  end
              end
      end
  end.

(** [agentReply], awaited: [null] from the [catch] clause. *)
Definition agentReply (userText : jsstring) (o : ServiceOutcome)
  : Completion JsValue :=
  match agentReply_try o with
  | Normal v => Normal v
  | Thrown _ => Normal JNull
  end.

Definition await_agentReply (userText : jsstring) (o : ServiceOutcome)
  : M JsValue :=
  fun h =>
    (agentReply userText o,
     {| hs_sessions := hs_sessions h; hs_twiml := hs_twiml h;
        hs_calls := hs_calls h ++ [userText]; hs_sent := hs_sent h |}).

Definition SAY_HOLD : jsstring :=
  u16 "Thanks. One moment while I get that scheduled.".

(** The [try] block of /voice/handle (lines 168-208). [cmd] stays
    [undefined] when the inner [try] catches. *)
Definition handle_try (lib : Library) (req : Request) (o : ServiceOutcome)
  : M unit :=
  let callSid := CallSid req in
  session ← s callSid;
  speech ← lift (call_trim (js_or (SpeechResult req) (JStr [])));
  write session incr_turns;;
  if negb (truthy (JStr speech))
  then
    emit (Say SAY_NO_CATCH);;
    emit (Redirect URL_GATHER);;
    send
  else
    cmd ← try_catch (await_agentReply speech o) (fun _ => ret JUndefined);
    unusable ←
      (if negb (truthy cmd) then ret true
       else cmd_say ← lift (get_prop cmd (u16 "say"));
            ret (negb (typeof_string cmd_say)));
    if (unusable : bool)
    then
      emit (Say SAY_HOLD);;
      emit (Redirect URL_GATHER);;
      send
    else
      cmd_extracted ← lift (get_prop cmd (u16 "extracted"));
      let ex := js_or cmd_extracted (JObj []) in
      ex_name ← lift (get_prop ex (u16 "name"));
      when (truthy ex_name) (write session (set_name ex_name));;
      ex_preferred_time ← lift (get_prop ex (u16 "preferred_time"));
      when (truthy ex_preferred_time)
           (write session (set_preferred_time ex_preferred_time));;
      x ← read session;
      when (truthy (name x) && truthy (preferred_time x))
           (write session (set_booked (JBool true)));;
      cmd_say ← lift (get_prop cmd (u16 "say"));
      twiml_say lib (js_or cmd_say (JStr SAY_OKAY));;
      x ← read session;
      (if truthy (booked x)
       then emit (Say SAY_ALL_SET);; emit Hangup
       else emit (Redirect URL_GATHER));;
      send.

Definition handle (lib : Library) (req : Request) (o : ServiceOutcome)
  : M unit :=
  try_catch (handle_try lib req o) handle_catch.

(** The effect of one /voice/handle turn of the draft on the session
    [x] of the call, the document sent and the calls made. *)
Definition handle_closed (lib : Library) (req : Request) (o : ServiceOutcome)
  (x : Session) : Session * list Verb * list jsstring :=
  match call_trim (js_or (SpeechResult req) (JStr [])) with
  | Thrown _ => (x, APOLOGY_DOC, [])
  | Normal speech =>
      if negb (truthy (JStr speech))
      then (incr_turns x,
            [Say SAY_NO_CATCH; Redirect URL_GATHER], [])
      else
        let cmd := match agentReply speech o with
                   | Normal v => v
                   | Thrown _ => JUndefined
                   end in
        if negb (truthy cmd) || negb (typeof_string (prop cmd (u16 "say")))
        then (incr_turns x,
              [Say SAY_HOLD; Redirect URL_GATHER], [speech])
        else
          let x' := merge_extracted
                      (js_or (prop cmd (u16 "extracted")) (JObj []))
                      (incr_turns x) in
          (x',
           reply_doc lib (js_or (prop cmd (u16 "say")) (JStr SAY_OKAY)) x',
           [speech])
  end.

End Draft000.

(* ===================================================================== *)
(** ** The draft [src/unnamed/part_002]: [agentReply] *)
(* ===================================================================== *)

Module Draft002.

(** U+2014, the dash of the draft's lines. *)
Definition DASH : jsstring := [8212%N].

Definition SAY_REPEAT : jsstring :=
  u16 "Sorry " ++ DASH ++ u16 " can you repeat that?".
Definition SAY_DEFAULT : jsstring :=
  u16 "Okay " ++ DASH
      ++ u16 " can you tell me your name and the best day/time?".

(** [{ say, extracted: { name, preferred_time } }]. *)
Definition reply (say name preferred_time : JsValue) : JsValue :=
  JObj [(u16 "say", say);
        (u16 "extracted",
         JObj [(u16 "name", name); (u16 "preferred_time", preferred_time)])].

(** The object returned on every failure. *)
Definition FALLBACK : JsValue := reply (JStr SAY_REPEAT) JNull JNull.

(** [v?.k]. *)
Definition optional (v : JsValue) (k : jsstring) : JsValue :=
  match get_prop v k with
  | Normal w => w
  | Thrown _ => JUndefined
  end.

(** [a ?? b]. *)
Definition nullish (a b : JsValue) : JsValue :=
  match a with
  | JUndefined | JNull => b
  | _ => a
  end.

(** [typeof v === "string" && v.length > 0]. *)
Definition nonempty_string (v : JsValue) : bool :=
  match v with
  | JStr (_ :: _) => true
  | _ => false
  end.

(** The [try] block of [agentReply] (lines 58-93). *)
Definition agentReply_try (o : ServiceOutcome) : Completion JsValue :=
  match o with
  | ServiceRejects => Thrown ServiceError
  | ServiceResolves output_text =>
      match call_trim (js_or output_text (JStr [])) with
      | Thrown e => Thrown e
      | Normal text =>
          if negb (truthy (JStr text)) then Normal FALLBACK
          else
            let a := indexOf text LBRACE in
            let b := lastIndexOf text RBRACE in
            if (a =? -1) || (b =? -1) then Normal FALLBACK
            else
              match JSON_parse (slice text a (b + 1)) with
              | None => Thrown SyntaxError
              | Some parsed =>
                  let say :=
                    if nonempty_string (optional parsed (u16 "say"))
                    then optional parsed (u16 "say")
                    else JStr SAY_DEFAULT in
                  let extracted := optional parsed (u16 "extracted") in
                  Normal
                    (reply say
                       (nullish (optional extracted (u16 "name")) JNull)
                       (nullish (optional extracted (u16 "preferred_time"))
                                JNull))
              end
      end
  end.

Definition agentReply (userText : jsstring) (o : ServiceOutcome)
  : Completion JsValue :=
  match agentReply_try o with
  | Normal v => Normal v
  | Thrown _ => Normal FALLBACK
  end.

End Draft002.

(* ===================================================================== *)
(** ** Closed forms of the handlers *)
(* ===================================================================== *)

Section ClosedForms.

Implicit Types (st : Sessions) (k : CallId) (x : Session) (lib : Library).


(** The lines written in the source hold legal characters only, so
    [twiml.say] speaks them as they are, whatever the library. *)
Lemma fixed_lines_are_legal lib line :
  In line [SAY_TIED_UP; SAY_CLOSING; SAY_ASK_BOTH; SAY_ASK_NAME; SAY_ASK_TIME;
           SAY_ONE_MOMENT; SAY_NO_CATCH; SAY_OKAY; SAY_ALL_SET; SAY_APOLOGY;
           FALLBACK_SAY; Draft000.SAY_HOLD] ->
  xml_legal line = true /\ twiml_say lib (JStr line) = emit (Say line).
Proof.
  intros Hin.
  assert (Hlegal : xml_legal line = true).
  { simpl in Hin.
    repeat (destruct Hin as [<- | Hin]; [by vm_compute|]). destruct Hin. }
  split; [exact Hlegal|]. unfold twiml_say, say_result. by rewrite Hlegal.
Qed.

Lemma deref_insert st k x : deref (<[k := x]> st) k = x.
Proof. unfold deref. by rewrite lookup_insert_eq. Qed.

Lemma deref_insert_ne st k k' x : k ≠ k' -> deref (<[k := x]> st) k' = deref st k'.
Proof. intros Hne. unfold deref. by rewrite lookup_insert_ne. Qed.

(** After [s(callSid)] the map holds the session it held, or a fresh one. *)
Lemma s_sessions st k :
  match st !! k with
  | Some _ => st
  | None => <[k := new_session]> st
  end = <[k := deref st k]> st.
Proof.
  unfold deref. destruct (st !! k) as [x|] eqn:E; simpl; [|done].
  by rewrite insert_id.
Qed.

(** [v.k] cannot throw on a truthy value. *)
Lemma get_prop_truthy v key :
  truthy v = true -> exists w, get_prop v key = Normal w.
Proof. destruct v; simpl; intros; try discriminate; eauto. Qed.

Lemma js_or_truthy a b : truthy b = true -> truthy (js_or a b) = true.
Proof. unfold js_or. destruct (truthy a) eqn:E; auto. Qed.

(** [agentReply] never throws. *)
Lemma agentReply_total userText o : exists v, agentReply userText o = Normal v.
Proof. unfold agentReply. destruct (agentReply_try o); eauto. Qed.

Lemma get_prop_prop v key w : get_prop v key = Normal w -> prop v key = w.
Proof. unfold prop. by intros ->. Qed.

(** The reply to a line that is a string. *)
Lemma reply_doc_string lib text x :
  reply_doc lib (JStr text) x
  = if xml_legal text
    then Say text :: (if truthy (booked x)
                      then [Say SAY_ALL_SET; Hangup]
                      else [Redirect URL_GATHER])
    else APOLOGY_DOC.
Proof. unfold reply_doc, say_result. by destruct (xml_legal text). Qed.

Lemma run_handle lib req o st :
  run (handle lib req o) st =
  let '(x', doc, calls) := handle_closed lib req o (deref st (CallSid req)) in
  {| out_sessions := <[CallSid req := x']> st;
     out_reply := Responded doc;
     out_calls := calls |}.
Proof.
  unfold run, handle, try_catch, handle_try, handle_closed.
  unfold mbind, M_bind, bind, s, lift. simpl.
  rewrite s_sessions.
  destruct (call_trim _) as [speech|e] eqn:Htrim; [|reflexivity].
  unfold write at 1. simpl. rewrite deref_insert, insert_insert_eq.
  destruct speech as [|c sp]; simpl; [reflexivity|].
  unfold await_agentReply.
  destruct (agentReply_total (c :: sp) o) as [cmd ->]. simpl.
  destruct (get_prop cmd (u16 "extracted")) as [ce|e] eqn:Hce; [|reflexivity].
  assert (Hex : truthy (js_or ce (JObj [])) = true) by by apply js_or_truthy.
  destruct (get_prop_truthy _ (u16 "name") Hex) as [n Hn].
  destruct (get_prop_truthy _ (u16 "preferred_time") Hex) as [p Hp].
  assert (Hsay : exists w, get_prop cmd (u16 "say") = Normal w).
  { destruct cmd; simpl in *; try discriminate; eauto. }
  destruct Hsay as [w Hw].
  unfold merge_extracted, reply_doc, twiml_say.
  rewrite (get_prop_prop _ _ _ Hn), (get_prop_prop _ _ _ Hp), (get_prop_prop _ _ _ Hw).
  rewrite Hn, Hp, Hw.
  destruct (say_result lib (js_or w (JStr SAY_OKAY))) as [|text|];
    unfold handle_catch, mbind, M_bind, bind, when, write, read, emit, send,
      ret, lift;
    destruct (truthy n), (truthy p); simpl;
    repeat (rewrite ?deref_insert, ?insert_insert_eq; simpl;
            match goal with
            | |- context [if ?b then _ else _] => destruct b eqn:?
            end);
    rewrite ?deref_insert, ?insert_insert_eq; simpl;
    rewrite ?deref_insert, ?insert_insert_eq;
    try reflexivity; rewrite ?deref_insert in *; simpl in *; congruence.
Qed.

Lemma run_initial cfg req st :
  run (initial cfg req) st =
  {| out_sessions := <[CallSid req := deref st (CallSid req)]> st;
     out_reply :=
       match OFFICE_TRANSFER_NUMBER cfg with
       | Some (c :: number) =>
           if xml_legal (c :: number)
           then Responded [Dial 10 URL_AFTER_TRANSFER (c :: number)]
           else Unanswered
       | _ => Unanswered
       end;
     out_calls := [] |}.
Proof.
  unfold run, initial, twiml_dial_number, mbind, M_bind, bind, s, lift. simpl.
  rewrite s_sessions.
  destruct (OFFICE_TRANSFER_NUMBER cfg) as [[|c number]|]; try reflexivity.
  by destruct (xml_legal _).
Qed.

Lemma run_after_transfer_attempt req st :
  run (after_transfer_attempt req) st =
  {| out_sessions := st;
     out_reply :=
       Responded (if strict_eq_str (DialCallStatus req) (u16 "completed")
                  then [Hangup]
                  else [Say SAY_TIED_UP; Redirect URL_GATHER]);
     out_calls := [] |}.
Proof.
  unfold run, after_transfer_attempt, mbind, M_bind, bind.
  by destruct (strict_eq_str _ _).
Qed.

Lemma run_gather cfg req st :
  run (gather cfg req) st =
  {| out_sessions := <[CallSid req := deref st (CallSid req)]> st;
     out_reply :=
       Responded
         (if MAX_TURNS cfg <=? turns (deref st (CallSid req))
          then [Say SAY_CLOSING; Hangup]
          else [Gather URL_HANDLE (gather_prompt (deref st (CallSid req)));
                Redirect URL_GATHER]);
     out_calls := [] |}.
Proof.
  unfold run, gather, mbind, M_bind, bind, s, read. simpl.
  rewrite s_sessions, deref_insert.
  destruct (_ <=? _); simpl; by rewrite ?deref_insert.
Qed.

Lemma deref_touch st k k' : deref (<[k := deref st k]> st) k' = deref st k'.
Proof.
  destruct (decide (k = k')) as [->|Hne].
  - apply deref_insert.
  - by apply deref_insert_ne.
Qed.

Lemma deref_turn lib cfg w st k :
  deref (out_sessions (turn lib cfg w st)) k = session_after lib w k (deref st k).
Proof.
  destruct w as [req|req|req|req o]; simpl.
  - rewrite run_initial. apply deref_touch.
  - by rewrite run_after_transfer_attempt.
  - rewrite run_gather. apply deref_touch.
  - rewrite run_handle.
    destruct (handle_closed lib req o (deref st (CallSid req))) as [[x' doc] calls] eqn:E.
    simpl. destruct (decide (CallSid req = k)) as [<-|Hne].
    + by rewrite E, deref_insert.
    + by apply deref_insert_ne.
Qed.

Lemma deref_turns_from lib cfg ws : forall st k,
  deref (turns_from lib cfg ws st) k
  = fold_left (fun x w => session_after lib w k x) ws (deref st k).
Proof.
  induction ws as [|w ws IH]; intros st k; simpl; [done|].
  by rewrite IH, deref_turn.
Qed.

(** A turn never removes a session from the map. *)
Lemma turn_keeps_sessions lib cfg w st k :
  is_Some (st !! k) -> is_Some (out_sessions (turn lib cfg w st) !! k).
Proof.
  intros Hk. destruct w as [req|req|req|req o]; simpl.
  - rewrite run_initial. simpl. rewrite lookup_insert_is_Some'. by right.
  - by rewrite run_after_transfer_attempt.
  - rewrite run_gather. simpl. rewrite lookup_insert_is_Some'. by right.
  - rewrite run_handle.
    destruct (handle_closed _ _ _ _) as [[x' doc] calls]. simpl.
    rewrite lookup_insert_is_Some'. by right.
Qed.

End ClosedForms.

(* ===================================================================== *)
(** ** Properties *)
(* ===================================================================== *)

(** *** The session store *)

(** C8. [s(callSid)] never fails and returns the reference [callSid];
    it leaves the response, the call log and every other session alone;
    when the map already holds a session for [callSid] the map is left
    as it is (the session is returned as it stands, nothing is reset);
    otherwise the session [{ turns: 0 }] is stored, in which [name],
    [preferred_time] and [booked] are unset; a second call changes
    nothing. *)
Theorem s_get_or_create (h : HState) (callSid : CallId) :
  let h' := (s callSid h).2 in
  (s callSid h).1 = Normal callSid
  /\ hs_twiml h' = hs_twiml h /\ hs_calls h' = hs_calls h
  /\ hs_sent h' = hs_sent h
  /\ (forall k, k ≠ callSid -> hs_sessions h' !! k = hs_sessions h !! k)
  /\ match hs_sessions h !! callSid with
     | Some x => hs_sessions h' = hs_sessions h
                 /\ hs_sessions h' !! callSid = Some x
                 /\ deref (hs_sessions h') callSid = x
     | None => hs_sessions h' = <[callSid := new_session]> (hs_sessions h)
               /\ hs_sessions h' !! callSid = Some new_session
               /\ deref (hs_sessions h') callSid = new_session
     end
  /\ (turns new_session = 0 /\ name new_session = JUndefined
      /\ preferred_time new_session = JUndefined
      /\ truthy (booked new_session) = false)
  /\ s callSid h' = (Normal callSid, h').
Proof.
  unfold s; simpl.
  destruct (hs_sessions h !! callSid) as [x|] eqn:E; simpl.
  - rewrite E. unfold deref. rewrite E. destruct h; simpl in *.
    repeat split; auto.
  - rewrite lookup_insert_eq, deref_insert. repeat split; auto.
    intros k Hk. by rewrite lookup_insert_ne.
Qed.

(** *** The transfer-outcome callback *)

(** C7. On /voice/after-transfer-attempt the status [completed] yields
    the document [<Hangup/>] alone: nothing is spoken and the call ends.
    Any other status, or none, yields the line "The team is tied up. I
    can schedule you right now." followed by a redirect to
    /voice/gather. No session is touched, the service is not called. *)
Theorem transfer_outcome (lib : Library) (cfg : Config) (req : Request) (st : Sessions) :
  let o := turn lib cfg (VoiceAfterTransferAttempt req) st in
  out_sessions o = st /\ out_calls o = []
  /\ (DialCallStatus req = JStr (u16 "completed") ->
      out_reply o = Responded [Hangup]
      /\ speak [Hangup] = [] /\ nextAction [Hangup] = Some HANGUP)
  /\ (DialCallStatus req ≠ JStr (u16 "completed") ->
      let doc := [Say SAY_TIED_UP; Redirect URL_GATHER] in
      out_reply o = Responded doc
      /\ speak doc = [SAY_TIED_UP]
      /\ firstn 19 SAY_TIED_UP = u16 "The team is tied up"
      /\ nextAction doc = Some LISTEN).
Proof.
  simpl. rewrite run_after_transfer_attempt. simpl.
  split; [done|]. split; [done|]. split.
  - intros ->. by vm_compute.
  - intros Hne.
    assert (strict_eq_str (DialCallStatus req) (u16 "completed") = false) as ->.
    { destruct (DialCallStatus req); simpl; try done.
      unfold jsstring_eqb. apply bool_decide_eq_false. congruence. }
    repeat split.
Qed.

Lemma transfer_outcome_witness :
  out_reply (turn Samples.lib Samples.cfg_transfer
               (VoiceAfterTransferAttempt (Samples.dialed "completed")) ∅)
    = Responded [Hangup]
  /\ out_reply (turn Samples.lib Samples.cfg_transfer
                  (VoiceAfterTransferAttempt (Samples.dialed "no-answer")) ∅)
    = Responded [Say SAY_TIED_UP; Redirect URL_GATHER].
Proof.
  split.
  - apply (transfer_outcome Samples.lib Samples.cfg_transfer (Samples.dialed "completed") ∅).
    reflexivity.
  - apply (transfer_outcome Samples.lib Samples.cfg_transfer (Samples.dialed "no-answer") ∅).
    vm_compute. discriminate.
Defined.

(** *** What a speech turn does to the fields *)

(** The ways through a speech turn: the trim throws, the speech is
    empty, [cmd.extracted] throws, or the merge is reached. [tac] closes
    the first three, in which the fields are not written. *)
Ltac speech_turn_cases tac :=
  unfold handle_closed, extraction_of;
  destruct (call_trim _) as [?speech|]; [|tac];
  destruct (negb _); [tac|];
  destruct (agentReply _ _) as [?cmd|]; [|tac];
  destruct (get_prop _ _) as [?ce|]; [|tac];
  simpl.

Lemma merge_extracted_name ex x :
  name (merge_extracted ex x) = js_or (prop ex (u16 "name")) (name x).
Proof.
  unfold merge_extracted, js_or.
  destruct (truthy (prop ex (u16 "name"))), (truthy (prop ex (u16 "preferred_time")));
    simpl; by destruct (_ && _).
Qed.

Lemma merge_extracted_preferred_time ex x :
  preferred_time (merge_extracted ex x)
  = js_or (prop ex (u16 "preferred_time")) (preferred_time x).
Proof.
  unfold merge_extracted, js_or.
  destruct (truthy (prop ex (u16 "name"))), (truthy (prop ex (u16 "preferred_time")));
    simpl; by destruct (_ && _).
Qed.

Lemma merge_extracted_booked ex x :
  truthy (booked (merge_extracted ex x))
  = populated (merge_extracted ex x) || truthy (booked x).
Proof.
  unfold merge_extracted, populated.
  destruct (truthy (prop ex (u16 "name"))), (truthy (prop ex (u16 "preferred_time")));
    simpl; destruct (_ && _) eqn:E; simpl; by rewrite ?E.
Qed.

Lemma session_after_name lib w k x :
  name (session_after lib w k x) = js_or (reported (u16 "name") k w) (name x).
Proof.
  destruct w as [req|req|req|req o]; try reflexivity. simpl.
  destruct (decide (CallSid req = k)); [|reflexivity].
  speech_turn_cases ltac:(reflexivity). by rewrite merge_extracted_name.
Qed.

Lemma session_after_preferred_time lib w k x :
  preferred_time (session_after lib w k x)
  = js_or (reported (u16 "preferred_time") k w) (preferred_time x).
Proof.
  destruct w as [req|req|req|req o]; try reflexivity. simpl.
  destruct (decide (CallSid req = k)); [|reflexivity].
  speech_turn_cases ltac:(reflexivity). by rewrite merge_extracted_preferred_time.
Qed.

(** [booked] is only ever assigned [true]. *)
Lemma session_after_booked_mono lib w k x :
  truthy (booked x) = true -> truthy (booked (session_after lib w k x)) = true.
Proof.
  intros Hb. destruct w as [req|req|req|req o]; try exact Hb. simpl.
  destruct (decide (CallSid req = k)); [|exact Hb].
  speech_turn_cases ltac:(exact Hb). rewrite merge_extracted_booked. simpl. rewrite Hb. apply orb_true_r.
Qed.

Lemma merge_extracted_inv ex x :
  booked_iff_populated x -> booked_iff_populated (merge_extracted ex x).
Proof.
  unfold booked_iff_populated. intros Hx.
  rewrite merge_extracted_booked.
  destruct (populated (merge_extracted ex x)) eqn:Hp; [reflexivity|]. simpl.
  rewrite Hx. unfold populated in *.
  rewrite merge_extracted_name, merge_extracted_preferred_time in Hp.
  unfold js_or in Hp.
  destruct (truthy (name x)) eqn:Hn, (truthy (preferred_time x)) eqn:Ht;
    try reflexivity.
  destruct (truthy (prop ex (u16 "name"))) eqn:E1,
           (truthy (prop ex (u16 "preferred_time"))) eqn:E2;
    rewrite ?E1, ?E2, ?Hn, ?Ht in Hp; discriminate.
Qed.

Lemma session_after_inv lib w k x :
  booked_iff_populated x -> booked_iff_populated (session_after lib w k x).
Proof.
  intros Hx. destruct w as [req|req|req|req o]; try exact Hx. simpl.
  destruct (decide (CallSid req = k)); [|exact Hx].
  speech_turn_cases ltac:(exact Hx). by apply merge_extracted_inv.
Qed.

Lemma reachable_inv lib cfg ws k :
  booked_iff_populated (deref (turns_from lib cfg ws ∅) k).
Proof.
  rewrite deref_turns_from.
  assert (H0 : booked_iff_populated (deref (∅ : Sessions) k)) by reflexivity.
  revert H0. generalize (deref (∅ : Sessions) k).
  induction ws as [|w ws IH]; intros x Hx; simpl; [exact Hx|].
  apply IH. by apply session_after_inv.
Qed.

Lemma booked_flips_after lib cfg ws : forall st k,
  truthy (booked (deref st k)) = true -> booked_flips lib cfg ws st k = 0%nat.
Proof.
  induction ws as [|w ws IH]; intros st k Hb; simpl; [reflexivity|].
  rewrite Hb. simpl. apply IH. rewrite deref_turn.
  by apply session_after_booked_mono.
Qed.

Lemma booked_flips_le_1 lib cfg ws : forall st k,
  (booked_flips lib cfg ws st k <= 1)%nat.
Proof.
  induction ws as [|w ws IH]; intros st k; simpl; [lia|].
  destruct (truthy (booked (deref st k))) eqn:Hb; simpl.
  - apply IH.
  - destruct (truthy (booked (deref (out_sessions (turn lib cfg w st)) k))) eqn:Hb'.
    + rewrite booked_flips_after by exact Hb'. lia.
    + apply IH.
Qed.

(** *** Booking *)

(** C5, as the code has it. Along any sequence of webhooks from the
    empty map, for every call: [booked] is truthy exactly when [name]
    and [preferred_time] both are; a turn never makes a truthy [booked]
    falsy, so [booked] goes from falsy to truthy at most once; and the
    turn on which it does is a speech turn of that call with speech,
    answered with a hangup. When [twiml.say] takes the line of the
    service, the reply is that line (or a [<Say>] without text), then
    "You're all set. We'll text you to confirm. Goodbye.", then the
    hangup. When [twiml.say] throws on the line, [booked] has been set
    already and the reply is the apology and the hangup, without the
    confirmation. *)
Theorem booking_monotone_and_complete
  (lib : Library) (cfg : Config) (ws : list Webhook) (w : Webhook) (k : CallId) :
  let st := turns_from lib cfg ws ∅ in
  let out := turn lib cfg w st in
  let x := deref st k in
  let x' := deref (out_sessions out) k in
  truthy (booked x') = truthy (name x') && truthy (preferred_time x')
  /\ (truthy (booked x) = true -> truthy (booked x') = true)
  /\ (booked_flips lib cfg (ws ++ [w]) ∅ k <= 1)%nat
  /\ (truthy (booked x) = false -> truthy (booked x') = true ->
      exists req o c speech cmd doc,
        w = VoiceHandle req o /\ CallSid req = k
        /\ call_trim (js_or (SpeechResult req) (JStr [])) = Normal (c :: speech)
        /\ agentReply (c :: speech) o = Normal cmd
        /\ out_reply out = Responded doc
        /\ nextAction doc = Some HANGUP
        /\ match say_result lib (js_or (prop cmd (u16 "say")) (JStr SAY_OKAY)) with
           | Speaks line =>
               doc = [Say line; Say SAY_ALL_SET; Hangup]
               /\ speak doc = [line; SAY_ALL_SET]
           | Silent =>
               doc = [SayNothing; Say SAY_ALL_SET; Hangup]
               /\ speak doc = [SAY_ALL_SET]
           | Throws =>
               doc = [Say SAY_APOLOGY; Hangup]
               /\ speak doc = [SAY_APOLOGY]
           end).
Proof.
  intros st out x x'. subst x' out.
  split; [|split; [|split]].
  - rewrite deref_turn. apply session_after_inv. apply reachable_inv.
  - rewrite deref_turn. apply session_after_booked_mono.
  - apply booked_flips_le_1.
  - rewrite deref_turn. subst x. intros Hb Hb'.
    destruct w as [req|req|req|req o]; simpl in Hb'; try congruence.
    destruct (decide (CallSid req = k)) as [Hk|]; [|congruence].
    exists req, o. simpl. rewrite run_handle, Hk. simpl.
    unfold handle_closed in *.
    destruct (call_trim _) as [[|c speech]|]; simpl in Hb'; try congruence.
    simpl.
    destruct (agentReply (c :: speech) o) as [cmd|] eqn:Hcmd;
      [|simpl in Hb'; congruence].
    destruct (get_prop cmd _) as [ce|]; [|simpl in Hb'; congruence].
    simpl in *. exists c, speech, cmd. unfold reply_doc. rewrite Hb'.
    destruct (say_result lib _); eexists; repeat split; eauto.
Qed.

Lemma booking_monotone_and_complete_witness :
  out_reply (turn Samples.lib Samples.cfg ScenarioA.both_fields ∅)
  = Responded [Say (u16 "Great, Dana"); Say SAY_ALL_SET; Hangup].
Proof.
  destruct (booking_monotone_and_complete Samples.lib Samples.cfg []
              ScenarioA.both_fields Samples.CA1)
    as (_ & _ & _ & Hturn).
  destruct Hturn
    as (req & o & c & speech & cmd & doc & Hw & _ & Htrim & Hcmd & Hreply
        & _ & Hdoc);
    [vm_compute; reflexivity | vm_compute; reflexivity |].
  unfold ScenarioA.both_fields in Hw. injection Hw as <- <-.
  vm_compute in Htrim. injection Htrim as <- <-.
  vm_compute in Hcmd. injection Hcmd as <-.
  vm_compute in Hdoc. destruct Hdoc as [-> _]. exact Hreply.
Defined.

(** C5 fails as stated: on a turn that completes the booking, a line of
    the service that [twiml.say] refuses (it ends in U+0001) leaves
    [booked] set and is answered with the apology, without the
    confirmation line. *)
Lemma booking_turn_can_end_in_apology :
  let out := turn Samples.lib Samples.cfg InternalError.unspeakable_booking ∅ in
  truthy (booked (deref ∅ Samples.CA1)) = false
  /\ truthy (booked (deref (out_sessions out) Samples.CA1)) = true
  /\ out_reply out = Responded [Say SAY_APOLOGY; Hangup]
  /\ speak [Say SAY_APOLOGY; Hangup] = [SAY_APOLOGY]
  /\ SAY_APOLOGY <> SAY_ALL_SET.
Proof. vm_compute. repeat split. discriminate. Qed.

(** *** Field capture *)

Lemma fold_session_after_name lib k ws : forall x,
  name (fold_left (fun x w => session_after lib w k x) ws x)
  = latest_truthy (u16 "name") k ws (name x).
Proof.
  induction ws as [|w ws IH]; intros x; simpl; [reflexivity|].
  unfold latest_truthy in *. simpl. by rewrite IH, session_after_name.
Qed.

Lemma fold_session_after_preferred_time lib k ws : forall x,
  preferred_time (fold_left (fun x w => session_after lib w k x) ws x)
  = latest_truthy (u16 "preferred_time") k ws (preferred_time x).
Proof.
  induction ws as [|w ws IH]; intros x; simpl; [reflexivity|].
  unfold latest_truthy in *. simpl.
  by rewrite IH, session_after_preferred_time.
Qed.

(** C1, as the code has it. A speech turn whose extraction result
    reports a truthy [name] (or [preferred_time]) stores that value,
    whatever the session held; a falsy report (null, absent, empty)
    leaves the field as it is. Hence after any sequence of webhooks the
    field holds the latest truthy value reported for the call, and a
    field that is set stays set. *)
Theorem latest_truthy_value_wins
  (lib : Library) (cfg : Config) (ws : list Webhook) (w : Webhook) (st : Sessions) (k : CallId) :
  let x := deref st k in
  let x' := deref (out_sessions (turn lib cfg w st)) k in
  let xs := deref (turns_from lib cfg ws st) k in
  name x' = js_or (reported (u16 "name") k w) (name x)
  /\ preferred_time x'
     = js_or (reported (u16 "preferred_time") k w) (preferred_time x)
  /\ name xs = latest_truthy (u16 "name") k ws (name x)
  /\ preferred_time xs
     = latest_truthy (u16 "preferred_time") k ws (preferred_time x)
  /\ (truthy (name x) = true -> truthy (name x') = true)
  /\ (truthy (preferred_time x) = true -> truthy (preferred_time x') = true).
Proof.
  simpl. rewrite deref_turn, deref_turns_from.
  rewrite session_after_name, session_after_preferred_time.
  rewrite fold_session_after_name, fold_session_after_preferred_time.
  repeat split; auto using js_or_truthy.
Qed.

(** C1 fails as stated: the name set on the first turn is replaced by
    the different name reported on the second. *)
Lemma name_is_overwritten :
  let st1 := turns_from Samples.lib Samples.cfg [Renaming.first_turn] ∅ in
  let st2 := out_sessions (turn Samples.lib Samples.cfg Renaming.second_turn st1) in
  name (deref st1 Samples.CA1) = JStr (u16 "Dana")
  /\ name (deref st2 Samples.CA1) = JStr (u16 "Dan")
  /\ name (deref st2 Samples.CA1) <> name (deref st1 Samples.CA1).
Proof. vm_compute. repeat split; discriminate. Qed.

Lemma latest_truthy_value_wins_witness :
  truthy (name (deref (out_sessions
                         (turn Samples.lib Samples.cfg Renaming.second_turn
                               (turns_from Samples.lib Samples.cfg [Renaming.first_turn] ∅)))
                      Samples.CA1)) = true.
Proof.
  destruct (latest_truthy_value_wins Samples.lib Samples.cfg [] Renaming.second_turn
              (turns_from Samples.lib Samples.cfg [Renaming.first_turn] ∅) Samples.CA1)
    as (_ & _ & _ & _ & Hkept & _).
  apply Hkept. vm_compute. reflexivity.
Defined.

(** *** Empty strings and other falsy reports *)

Lemma latest_truthy_unset_or_truthy field k ws : forall v0,
  v0 = JUndefined \/ truthy v0 = true ->
  latest_truthy field k ws v0 = JUndefined
  \/ truthy (latest_truthy field k ws v0) = true.
Proof.
  unfold latest_truthy.
  induction ws as [|w ws IH]; intros v0 H0; simpl; [exact H0|].
  apply IH. unfold js_or.
  destruct (truthy (reported field k w)) eqn:E; auto.
Qed.

Lemma latest_truthy_strings field k ws : forall v0,
  unset_or_nonempty_string v0 ->
  (forall w, In w ws -> string_or_nullish (reported field k w) = true) ->
  unset_or_nonempty_string (latest_truthy field k ws v0).
Proof.
  unfold latest_truthy.
  induction ws as [|w ws IH]; intros v0 H0 Hall; simpl; [exact H0|].
  apply IH; [|intros w' Hw'; apply Hall; by right].
  specialize (Hall w (or_introl eq_refl)).
  unfold js_or. destruct (reported field k w) as [| | | |t| |]; simpl in *;
    try discriminate; try exact H0.
  destruct t as [|c t]; [exact H0|]. right. eauto.
Qed.

(** C10, as the code has it. On a speech turn whose extraction result
    reports the empty string for a field, the field keeps its value
    (the merge tests truthiness). Along any sequence of webhooks from
    the empty map a field is either unset or truthy, so it is never the
    empty string, and [booked] truthy entails both fields truthy. When
    every value reported for a field is a string, null or absent, the
    field is unset or a non-empty string. *)
Theorem falsy_reports_are_ignored
  (lib : Library) (cfg : Config) (ws : list Webhook) (w : Webhook) (k : CallId) :
  let st := turns_from lib cfg ws ∅ in
  let x := deref st k in
  let x' := deref (out_sessions (turn lib cfg w st)) k in
  (reported (u16 "name") k w = JStr [] -> name x' = name x)
  /\ (reported (u16 "preferred_time") k w = JStr [] ->
      preferred_time x' = preferred_time x)
  /\ (name x = JUndefined \/ truthy (name x) = true)
  /\ (preferred_time x = JUndefined \/ truthy (preferred_time x) = true)
  /\ name x <> JStr [] /\ preferred_time x <> JStr []
  /\ (truthy (booked x) = true ->
      truthy (name x) = true /\ truthy (preferred_time x) = true)
  /\ ((forall w0, In w0 ws ->
         string_or_nullish (reported (u16 "name") k w0) = true) ->
      unset_or_nonempty_string (name x))
  /\ ((forall w0, In w0 ws ->
         string_or_nullish (reported (u16 "preferred_time") k w0) = true) ->
      unset_or_nonempty_string (preferred_time x)).
Proof.
  intros st x x'. subst x' x st.
  rewrite deref_turn, session_after_name, session_after_preferred_time.
  pose proof (reachable_inv lib cfg ws k) as Hinv.
  rewrite deref_turns_from in *.
  rewrite fold_session_after_name, fold_session_after_preferred_time in *.
  unfold booked_iff_populated, populated in Hinv.
  rewrite fold_session_after_name, fold_session_after_preferred_time in Hinv.
  assert (Hn := latest_truthy_unset_or_truthy (u16 "name") k ws JUndefined
                  (or_introl eq_refl)).
  assert (Hp := latest_truthy_unset_or_truthy (u16 "preferred_time") k ws
                  JUndefined (or_introl eq_refl)).
  change (name (deref ∅ k)) with JUndefined in *.
  change (preferred_time (deref ∅ k)) with JUndefined in *.
  split; [by intros ->|]. split; [by intros ->|].
  split; [exact Hn|]. split; [exact Hp|].
  split; [destruct Hn as [-> | Hn]; [discriminate | intros E; by rewrite E in Hn]|].
  split; [destruct Hp as [-> | Hp]; [discriminate | intros E; by rewrite E in Hp]|].
  split.
  { intros Hb. rewrite Hb in Hinv. symmetry in Hinv.
    by apply andb_true_iff in Hinv. }
  split; apply latest_truthy_strings; by left.
Qed.

(** C10 fails as stated: a truthy report that is not a string is stored
    as it comes, so a set field need not be a string. *)
Lemma field_set_to_a_number :
  name (deref (turns_from Samples.lib Samples.cfg [OddReports.numeric_name] ∅) Samples.CA1)
  = JNum 42 0
  /\ ~ unset_or_nonempty_string (JNum 42 0).
Proof.
  split; [by vm_compute|].
  intros [H | (c & t & H)]; discriminate.
Qed.

Lemma falsy_reports_are_ignored_witness :
  let st := turns_from Samples.lib Samples.cfg [Renaming.first_turn] ∅ in
  name (deref (out_sessions (turn Samples.lib Samples.cfg OddReports.empty_name st))
              Samples.CA1)
  = name (deref st Samples.CA1).
Proof.
  destruct (falsy_reports_are_ignored Samples.lib Samples.cfg [Renaming.first_turn]
              OddReports.empty_name Samples.CA1) as (Hsame & _).
  apply Hsame. vm_compute. reflexivity.
Defined.

(** *** The empty utterance *)

(** C4, as the code has it. On a speech turn whose speech is empty
    (absent, empty, or white space only) the reply is "I didn't catch
    that." and a redirect to /voice/gather, and the service is not
    called; [turns] goes up by one, since the increment comes before
    the test; the fields and [booked] keep their values and no other
    session changes. *)
Theorem empty_utterance_turn
  (lib : Library) (cfg : Config) (req : Request) (o : ServiceOutcome) (st : Sessions)
  (Hempty : call_trim (js_or (SpeechResult req) (JStr [])) = Normal []) :
  let out := turn lib cfg (VoiceHandle req o) st in
  let x := deref st (CallSid req) in
  let x' := deref (out_sessions out) (CallSid req) in
  out_reply out = Responded [Say SAY_NO_CATCH; Redirect URL_GATHER]
  /\ speak [Say SAY_NO_CATCH; Redirect URL_GATHER] = [SAY_NO_CATCH]
  /\ nextAction [Say SAY_NO_CATCH; Redirect URL_GATHER] = Some LISTEN
  /\ out_calls out = []
  /\ turns x' = turns x + 1
  /\ name x' = name x /\ preferred_time x' = preferred_time x
  /\ booked x' = booked x
  /\ (forall k, k ≠ CallSid req -> out_sessions out !! k = st !! k).
Proof.
  simpl. rewrite run_handle. unfold handle_closed. rewrite Hempty. simpl.
  rewrite deref_insert. simpl. repeat split.
  intros k Hk. by rewrite lookup_insert_ne.
Qed.

Lemma empty_utterance_turn_witness :
  out_reply (turn Samples.lib Samples.cfg (VoiceHandle Samples.silence ServiceRejects) ∅)
  = Responded [Say SAY_NO_CATCH; Redirect URL_GATHER].
Proof.
  destruct (empty_utterance_turn Samples.lib Samples.cfg Samples.silence ServiceRejects ∅)
    as (Hreply & _); [vm_compute; reflexivity | exact Hreply].
Defined.

(** C4 fails as stated: the turn count of a fresh call is 0 before an
    empty speech turn and 1 after it. *)
Lemma empty_turn_is_counted :
  let out := turn Samples.lib Samples.cfg (VoiceHandle Samples.silence ServiceRejects) ∅ in
  call_trim (js_or (SpeechResult Samples.silence) (JStr [])) = Normal []
  /\ turns (deref ∅ Samples.CA1) = 0
  /\ turns (deref (out_sessions out) Samples.CA1) = 1.
Proof. by vm_compute. Qed.

(** *** The turn budget *)

(** C3, as the code has it. On /voice/gather a session whose [turns]
    has reached [MAX_TURNS] gets "Thanks. I'll have the team call you
    back shortly. Goodbye." and a hangup, whatever its fields hold, and
    the session is left as it is; /voice/gather never calls the
    service. /voice/handle does not look at the budget: its outcome is
    the same under every configuration, and it calls the service once
    whenever the speech is not empty. *)
Theorem gather_enforces_budget
  (lib : Library) (cfg : Config) (req : Request) (st : Sessions)
  (Hover : MAX_TURNS cfg <= turns (deref st (CallSid req))) :
  let out := turn lib cfg (VoiceGather req) st in
  out_reply out = Responded [Say SAY_CLOSING; Hangup]
  /\ speak [Say SAY_CLOSING; Hangup] = [SAY_CLOSING]
  /\ nextAction [Say SAY_CLOSING; Hangup] = Some HANGUP
  /\ deref (out_sessions out) (CallSid req) = deref st (CallSid req)
  /\ (forall cfg' req' st', out_calls (turn lib cfg' (VoiceGather req') st') = [])
  /\ (forall cfg' req' o st',
        turn lib cfg' (VoiceHandle req' o) st' = turn lib cfg (VoiceHandle req' o) st')
  /\ (forall cfg' req' o st' c speech,
        call_trim (js_or (SpeechResult req') (JStr [])) = Normal (c :: speech) ->
        out_calls (turn lib cfg' (VoiceHandle req' o) st') = [c :: speech]).
Proof.
  simpl. rewrite run_gather. simpl.
  apply Z.leb_le in Hover. rewrite Hover. rewrite deref_insert.
  repeat split.
  - intros. by rewrite run_gather.
  - intros cfg' req' o st' c speech Htrim.
    rewrite run_handle. unfold handle_closed. rewrite Htrim. simpl.
    destruct (agentReply_total (c :: speech) o) as [cmd ->].
    by destruct (get_prop cmd _).
Qed.

Lemma gather_enforces_budget_witness :
  out_reply (turn Samples.lib Samples.cfg (VoiceGather Samples.silence) OverBudget.st6)
  = Responded [Say SAY_CLOSING; Hangup].
Proof.
  destruct (gather_enforces_budget Samples.lib Samples.cfg Samples.silence OverBudget.st6)
    as (Hreply & _); [vm_compute; discriminate | exact Hreply].
Defined.

(** C3 fails as stated: with the budget of 6 used up, a speech turn on
    /voice/handle still calls the service and goes on listening. *)
Lemma over_budget_turn_calls_service :
  let out := turn Samples.lib Samples.cfg OverBudget.seventh_turn OverBudget.st6 in
  MAX_TURNS Samples.cfg = 6
  /\ turns (deref OverBudget.st6 Samples.CA1) = 6
  /\ out_calls out = [u16 "Dana"]
  /\ out_reply out
     = Responded [Say (u16 "Hi Dana"); Redirect URL_GATHER]
  /\ nextAction [Say (u16 "Hi Dana"); Redirect URL_GATHER] = Some LISTEN.
Proof. by vm_compute. Qed.

(** *** Every turn is answered *)

Lemma strict_eq_str_true v t : strict_eq_str v t = true -> v = JStr t.
Proof.
  destruct v; simpl; try discriminate.
  unfold jsstring_eqb. intros H. apply bool_decide_eq_true in H. by subst.
Qed.

(** When the [try] block of /voice/handle throws, nothing has been
    added to the response and nothing has been sent: [twiml.say] on the
    line of the service is the first call on the response. *)
Lemma handle_try_thrown lib req o h e h' :
  handle_try lib req o h = (Thrown e, h') ->
  hs_twiml h' = hs_twiml h /\ hs_sent h' = hs_sent h.
Proof.
  unfold handle_try, mbind, M_bind, bind, s, lift. simpl.
  destruct (call_trim _) as [speech|e0]; [|by intros [= <- <-]].
  unfold write at 1. simpl.
  destruct speech as [|c sp]; simpl; [by intros [=]|].
  unfold await_agentReply.
  destruct (agentReply_total (c :: sp) o) as [cmd ->]. simpl.
  destruct (get_prop cmd (u16 "extracted")) as [ce|e1] eqn:Hce;
    [|by intros [= <- <-]].
  assert (Hex : truthy (js_or ce (JObj [])) = true) by by apply js_or_truthy.
  destruct (get_prop_truthy _ (u16 "name") Hex) as [n ->].
  destruct (get_prop_truthy _ (u16 "preferred_time") Hex) as [p ->].
  assert (Hsay : exists w, get_prop cmd (u16 "say") = Normal w).
  { destruct cmd; simpl in *; try discriminate; eauto. }
  destruct Hsay as [w ->].
  unfold twiml_say.
  destruct (say_result lib (js_or w (JStr SAY_OKAY))) as [|text|];
    unfold when, write, read, emit, send, ret, lift;
    destruct (truthy n), (truthy p); simpl;
    repeat match goal with
           | |- context [if ?b then _ else _] => destruct b eqn:?; simpl
           end;
    by intros [= <- <-] || by intros [=].
Qed.

(** The [catch] clause of /voice/handle answers with the apology and a
    hangup. *)
Lemma handle_catches lib req o st e h' :
  handle_try lib req o
    {| hs_sessions := st; hs_twiml := []; hs_calls := []; hs_sent := None |}
  = (Thrown e, h') ->
  out_reply (run (handle lib req o) st)
  = Responded [Say SAY_APOLOGY; Hangup].
Proof.
  intros Hthrow. destruct (handle_try_thrown _ _ _ _ _ _ Hthrow) as [Htw _].
  unfold run, handle, try_catch. rewrite Hthrow.
  unfold handle_catch, mbind, M_bind, bind, emit, send. simpl.
  by rewrite Htw.
Qed.

(** In the branch without a transfer number /voice/initial throws
    before it sends anything: the caller gets no TwiML. *)
Lemma initial_without_transfer_number lib cfg req st :
  OFFICE_TRANSFER_NUMBER cfg = None \/ OFFICE_TRANSFER_NUMBER cfg = Some [] ->
  out_reply (turn lib cfg (VoiceInitial req) st) = Unanswered.
Proof.
  intros H. simpl. rewrite run_initial. simpl. by destruct H as [-> | ->].
Qed.

(** A [<Say>] without text comes from an argument that is not a
    string. *)
Lemma say_result_silent lib v :
  say_result lib (js_or v (JStr SAY_OKAY)) = Silent ->
  truthy v = true /\ (forall t, v <> JStr t) /\ lib v = Silent.
Proof.
  unfold js_or. destruct (truthy v) eqn:Ev.
  - destruct v; simpl; intros H; try (by repeat split).
    by destruct (xml_legal t).
  - simpl. by destruct (xml_legal SAY_OKAY).
Qed.

(** C2, as the code has it. Every turn on /voice/after-transfer-attempt,
    /voice/gather and /voice/handle, and every turn on /voice/initial
    when a transfer number is configured (a non-empty string of legal
    characters), is answered with a document that has a next action.
    The document speaks at least one line, except the three silent
    ones: the hangup after a completed transfer, the dial of the
    transfer, and the reply to a speech turn on which the line of the
    service is a value other than a string that [twiml.say] renders
    without text, when the call goes on. When the [try] block of
    /voice/handle throws, be it on the request, on the reply of the
    service or in [twiml.say], the answer is the apology "I apologize,
    but something went wrong. A team member will call you back
    shortly." and a hangup. *)
Theorem always_responds (lib : Library) (cfg : Config) (w : Webhook) (st : Sessions)
  (Hinit : match w with
           | VoiceInitial _ =>
               exists c number,
                 OFFICE_TRANSFER_NUMBER cfg = Some (c :: number)
                 /\ xml_legal (c :: number) = true
           | _ => True
           end) :
  exists doc a,
    out_reply (turn lib cfg w st) = Responded doc
    /\ nextAction doc = Some a
    /\ (speak doc = [] ->
        (exists req, w = VoiceAfterTransferAttempt req
                     /\ DialCallStatus req = JStr (u16 "completed")
                     /\ doc = [Hangup])
        \/ (exists req number,
               w = VoiceInitial req
               /\ OFFICE_TRANSFER_NUMBER cfg = Some number
               /\ doc = [Dial 10 URL_AFTER_TRANSFER number])
        \/ (exists req o c speech cmd,
               w = VoiceHandle req o
               /\ call_trim (js_or (SpeechResult req) (JStr []))
                  = Normal (c :: speech)
               /\ agentReply (c :: speech) o = Normal cmd
               /\ truthy (prop cmd (u16 "say")) = true
               /\ (forall t, prop cmd (u16 "say") <> JStr t)
               /\ lib (prop cmd (u16 "say")) = Silent
               /\ doc = [SayNothing; Redirect URL_GATHER]))
    /\ (forall req o e h',
          w = VoiceHandle req o ->
          handle_try lib req o
            {| hs_sessions := st; hs_twiml := []; hs_calls := [];
               hs_sent := None |} = (Thrown e, h') ->
          doc = [Say SAY_APOLOGY; Hangup]
          /\ speak doc = [SAY_APOLOGY]
          /\ nextAction doc = Some HANGUP).
Proof.
  destruct w as [req|req|req|req o]; simpl.
  - rewrite run_initial. simpl. destruct Hinit as (c & number & -> & ->).
    eexists _, TRANSFER. repeat split; try discriminate.
    intros _. right. left. eauto.
  - rewrite run_after_transfer_attempt. simpl.
    destruct (strict_eq_str _ _) eqn:E.
    + apply strict_eq_str_true in E.
      eexists _, HANGUP. repeat split; try discriminate. eauto.
    + eexists _, LISTEN. repeat split; discriminate.
  - rewrite run_gather. simpl.
    destruct (_ <=? _).
    + eexists _, HANGUP. repeat split; discriminate.
    + eexists _, LISTEN. repeat split; discriminate.
  - assert (Hdoc : exists doc a,
               out_reply (run (handle lib req o) st) = Responded doc
               /\ nextAction doc = Some a
               /\ (speak doc = [] ->
                   exists c speech cmd,
                     call_trim (js_or (SpeechResult req) (JStr []))
                     = Normal (c :: speech)
                     /\ agentReply (c :: speech) o = Normal cmd
                     /\ truthy (prop cmd (u16 "say")) = true
                     /\ (forall t, prop cmd (u16 "say") <> JStr t)
                     /\ lib (prop cmd (u16 "say")) = Silent
                     /\ doc = [SayNothing; Redirect URL_GATHER])).
    { rewrite run_handle. unfold handle_closed.
      destruct (call_trim _) as [[|c speech]|];
        [eexists _, LISTEN; repeat split; discriminate | |
         eexists _, HANGUP; repeat split; discriminate].
      simpl.
      destruct (agentReply (c :: speech) o) as [cmd|] eqn:Hcmd;
        [|eexists _, HANGUP; repeat split; discriminate].
      destruct (get_prop cmd _) as [ce|];
        [|eexists _, HANGUP; repeat split; discriminate].
      simpl. unfold reply_doc.
      destruct (say_result lib _) as [|text|] eqn:Hsay.
      - eexists _, HANGUP; repeat split; discriminate.
      - destruct (truthy (booked _)).
        + eexists _, HANGUP; repeat split; discriminate.
        + eexists _, LISTEN; repeat split; discriminate.
      - apply say_result_silent in Hsay as (Htruthy & Hnot & Hlib).
        destruct (truthy (booked _)).
        + eexists _, HANGUP; repeat split; discriminate.
        + eexists _, LISTEN. repeat split. intros _.
          exists c, speech, cmd. repeat split; assumption. }
    destruct Hdoc as (doc & a & Hreply & Hnext & Hspeak).
    exists doc, a. split; [exact Hreply|]. split; [exact Hnext|]. split.
    + intros Hnone. right. right.
      destruct (Hspeak Hnone) as (c & speech & cmd & H).
      exists req, o, c, speech, cmd. by split.
    + intros req' o' e h' [= <- <-] Hthrow.
      apply handle_catches in Hthrow. rewrite Hreply in Hthrow.
      injection Hthrow as ->. by repeat split.
Qed.

Lemma always_responds_witness :
  (exists doc a,
     out_reply (turn Samples.lib Samples.cfg_transfer
                  (VoiceInitial Samples.silence) ∅)
     = Responded doc
     /\ nextAction doc = Some a)
  /\ out_reply (turn Samples.lib Samples.cfg InternalError.null_reply ∅)
     = Responded [Say SAY_APOLOGY; Hangup]
  /\ out_reply (turn Samples.lib Samples.cfg
                  InternalError.unspeakable_booking ∅)
     = Responded [Say SAY_APOLOGY; Hangup].
Proof.
  split; [|split].
  - destruct (always_responds Samples.lib Samples.cfg_transfer
                (VoiceInitial Samples.silence) ∅)
      as (doc & a & Hreply & Hnext & _).
    { eexists _, _. split; [reflexivity | by vm_compute]. }
    exists doc, a. split; assumption.
  - destruct (always_responds Samples.lib Samples.cfg
                InternalError.null_reply ∅ I)
      as (doc & a & Hreply & _ & _ & Hcatch).
    edestruct Hcatch as (Hdoc & _);
      [reflexivity | vm_compute; reflexivity |].
    rewrite <- Hdoc. exact Hreply.
  - destruct (always_responds Samples.lib Samples.cfg
                InternalError.unspeakable_booking ∅ I)
      as (doc & a & Hreply & _ & _ & Hcatch).
    edestruct Hcatch as (Hdoc & _);
      [reflexivity | vm_compute; reflexivity |].
    rewrite <- Hdoc. exact Hreply.
Defined.

(** The third silent reply: the service gives an object as its line.
    A library that takes it for attributes adds a [<Say>] without text
    and the call goes on; one that refuses it makes the turn end in the
    apology. *)
Lemma object_line_is_not_spoken :
  out_reply (turn Samples.lib Samples.cfg InternalError.object_line ∅)
  = Responded [SayNothing; Redirect URL_GATHER]
  /\ speak [SayNothing; Redirect URL_GATHER] = []
  /\ out_reply (turn Samples.strict_lib Samples.cfg InternalError.object_line ∅)
     = Responded [Say SAY_APOLOGY; Hangup].
Proof. by vm_compute. Qed.

(** C2 fails as stated: the answer to a completed transfer is a bare
    hangup, with nothing spoken. *)
Lemma completed_transfer_is_silent :
  out_reply (turn Samples.lib Samples.cfg_transfer
               (VoiceAfterTransferAttempt (Samples.dialed "completed")) ∅)
  = Responded [Hangup]
  /\ speak [Hangup] = [].
Proof. by vm_compute. Qed.

(** *** [agentReply]: the fallback *)

Lemma agentReply_of_text userText t :
  agentReply userText (ServiceResolves (JStr t))
  = Normal (match JSON_parse (raw_of (trim t)) with
            | Some v => v
            | None => FALLBACK
            end).
Proof.
  unfold agentReply, agentReply_try, js_or.
  destruct t as [|c t]; simpl; [reflexivity|].
  by destruct (JSON_parse _).
Qed.

(** C6, as the code has it. [agentReply] never throws. It returns the
    fixed object [{ say: "Thanks. What day and time works best for
    you?", extracted: {} }] when the call to the service fails, when
    the response text is empty or not a string, and when [JSON.parse]
    rejects the candidate text (in particular a text without braces
    that is not JSON by itself). Whatever [JSON.parse] accepts is
    returned as it is, with or without a [say] property. *)
Theorem agentReply_fallback (userText : jsstring) (o : ServiceOutcome) :
  (exists v, agentReply userText o = Normal v)
  /\ (o = ServiceRejects -> agentReply userText o = Normal FALLBACK)
  /\ (forall output_text,
        o = ServiceResolves output_text -> truthy output_text = false ->
        agentReply userText o = Normal FALLBACK)
  /\ (forall output_text,
        o = ServiceResolves output_text -> (forall t, output_text <> JStr t) ->
        agentReply userText o = Normal FALLBACK)
  /\ (forall t,
        o = ServiceResolves (JStr t) -> JSON_parse (raw_of (trim t)) = None ->
        agentReply userText o = Normal FALLBACK)
  /\ (forall t v,
        o = ServiceResolves (JStr t) -> JSON_parse (raw_of (trim t)) = Some v ->
        agentReply userText o = Normal v)
  /\ prop FALLBACK (u16 "say") = JStr FALLBACK_SAY
  /\ prop FALLBACK (u16 "extracted") = JObj []
  /\ prop (JObj []) (u16 "name") = JUndefined
  /\ prop (JObj []) (u16 "preferred_time") = JUndefined.
Proof.
  split; [apply agentReply_total|].
  split; [by intros ->|].
  split.
  { intros ot -> Hfalsy. unfold agentReply, agentReply_try, js_or.
    by rewrite Hfalsy. }
  split.
  { intros ot -> Hns. unfold agentReply, agentReply_try, js_or.
    destruct (truthy ot); [|reflexivity].
    destruct ot; try reflexivity. by destruct (Hns t). }
  split; [intros t -> Hp; by rewrite agentReply_of_text, Hp|].
  split; [intros t v -> Hp; by rewrite agentReply_of_text, Hp|].
  by vm_compute.
Qed.

Lemma agentReply_fallback_witness :
  agentReply (u16 "Dana") (Samples.answers Replies.prose) = Normal FALLBACK.
Proof.
  destruct (agentReply_fallback (u16 "Dana") (Samples.answers Replies.prose))
    as (_ & _ & _ & _ & Hparse & _).
  apply (Hparse (u16 Replies.prose)); [reflexivity | vm_compute; reflexivity].
Defined.

(** C6 fails as stated: a parsed object without the spoken reply is
    returned as it is, not replaced by the fallback. *)
Lemma missing_say_is_not_fallback :
  agentReply (u16 "Dana") (Samples.answers Replies.no_say)
  = Normal (JObj [(u16 "extracted", JObj [])])
  /\ prop (JObj [(u16 "extracted", JObj [])]) (u16 "say") = JUndefined
  /\ JObj [(u16 "extracted", JObj [])] <> FALLBACK.
Proof. vm_compute. repeat split. discriminate. Qed.

(** *** [agentReply]: the candidate JSON text *)

Lemma indexOf_spec (t : jsstring) (c : N) :
  (indexOf t c = -1 /\ ~ In c t)
  \/ (0 <= indexOf t c < Z.of_nat (length t)
      /\ t !! Z.to_nat (indexOf t c) = Some c
      /\ forall j, (j < Z.to_nat (indexOf t c))%nat -> t !! j <> Some c).
Proof.
  induction t as [|d t IH]; simpl; [left; tauto|].
  destruct (N.eqb_spec d c) as [->|Hne].
  - right. split; [lia|]. split; [reflexivity|].
    intros j Hj. simpl in Hj. lia.
  - destruct IH as [[Hi Hnot] | (Hrange & Hat & Hfirst)].
    + rewrite Hi. simpl. left. split; [reflexivity|]. intros [?|?]; auto.
    + destruct (indexOf t c <? 0) eqn:E; [apply Z.ltb_lt in E; lia|].
      right. split; [lia|].
      replace (Z.to_nat (indexOf t c + 1)) with (S (Z.to_nat (indexOf t c))) by lia.
      split; [exact Hat|].
      intros [|j] Hj; simpl; [congruence|]. apply Hfirst. lia.
Qed.

Lemma lastIndexOf_spec (t : jsstring) (c : N) :
  (lastIndexOf t c = -1 /\ ~ In c t)
  \/ (0 <= lastIndexOf t c < Z.of_nat (length t)
      /\ t !! Z.to_nat (lastIndexOf t c) = Some c
      /\ forall j, (Z.to_nat (lastIndexOf t c) < j)%nat -> t !! j <> Some c).
Proof.
  induction t as [|d t IH]; simpl; [left; tauto|].
  destruct IH as [[Hi Hnot] | (Hrange & Hat & Hlast)].
  - rewrite Hi. simpl. destruct (N.eqb_spec d c) as [->|Hne].
    + right. split; [lia|]. split; [reflexivity|].
      intros [|j] Hj; simpl in *; [lia|].
      intros Hj'. apply Hnot. apply list_elem_of_In.
      by apply list_elem_of_lookup_2 in Hj'.
    + left. split; [reflexivity|]. intros [?|?]; auto.
  - destruct (0 <=? lastIndexOf t c) eqn:E; [|apply Z.leb_gt in E; lia].
    right. split; [lia|].
    replace (Z.to_nat (lastIndexOf t c + 1))
      with (S (Z.to_nat (lastIndexOf t c))) by lia.
    split; [exact Hat|].
    intros [|j] Hj; [lia|]. simpl. apply Hlast. lia.
Qed.

Lemma slice_inside (t : jsstring) (a b : Z) :
  0 <= a < Z.of_nat (length t) -> 0 <= b < Z.of_nat (length t) ->
  slice t a (b + 1) = firstn (Z.to_nat (b + 1 - a)) (skipn (Z.to_nat a) t).
Proof.
  intros Ha Hb. unfold slice.
  destruct (a <? 0) eqn:E1; [apply Z.ltb_lt in E1; lia|].
  destruct (b + 1 <? 0) eqn:E2; [apply Z.ltb_lt in E2; lia|].
  rewrite (Z.min_l a) by lia. rewrite (Z.min_l (b + 1)) by lia.
  f_equal. lia.
Qed.

(** C9, as the code has it. With [text] the trimmed reply, [a] is the
    position of the first brace [{] (or -1) and [b] that of the last
    brace [}] (or -1). When both braces occur the candidate is the part
    of [text] from position [a] to position [b] included, and nothing
    else is parsed. When a brace is missing the candidate is the whole
    of [text]. [agentReply] returns what [JSON.parse] makes of the
    candidate, or the fallback when [JSON.parse] rejects it. *)
Theorem candidate_json_text (userText t : jsstring) :
  let text := trim t in
  let a := indexOf text LBRACE in
  let b := lastIndexOf text RBRACE in
  ((a = -1 /\ ~ In LBRACE text)
   \/ (0 <= a < Z.of_nat (length text)
       /\ text !! Z.to_nat a = Some LBRACE
       /\ forall j, (j < Z.to_nat a)%nat -> text !! j <> Some LBRACE))
  /\ ((b = -1 /\ ~ In RBRACE text)
      \/ (0 <= b < Z.of_nat (length text)
          /\ text !! Z.to_nat b = Some RBRACE
          /\ forall j, (Z.to_nat b < j)%nat -> text !! j <> Some RBRACE))
  /\ (0 <= a -> 0 <= b ->
      raw_of text = firstn (Z.to_nat (b + 1 - a)) (skipn (Z.to_nat a) text))
  /\ (a < 0 \/ b < 0 -> raw_of text = text)
  /\ agentReply userText (ServiceResolves (JStr t))
     = Normal (match JSON_parse (raw_of text) with
               | Some v => v
               | None => FALLBACK
               end).
Proof.
  intros text a b.
  pose proof (indexOf_spec text LBRACE) as Ha.
  pose proof (lastIndexOf_spec text RBRACE) as Hb.
  fold a in Ha. fold b in Hb.
  split; [exact Ha|]. split; [exact Hb|].
  split; [|split].
  - intros Ha0 Hb0. unfold raw_of. fold a b.
    destruct (0 <=? a) eqn:E1; [|apply Z.leb_gt in E1; lia].
    destruct (0 <=? b) eqn:E2; [|apply Z.leb_gt in E2; lia].
    simpl. apply slice_inside.
    + destruct Ha as [[? _]|[? _]]; lia.
    + destruct Hb as [[? _]|[? _]]; lia.
  - intros Hneg. unfold raw_of. fold a b.
    destruct (0 <=? a) eqn:E1; [|reflexivity].
    destruct (0 <=? b) eqn:E2; [|reflexivity].
    apply Z.leb_le in E1, E2. lia.
  - apply agentReply_of_text.
Qed.

Lemma candidate_json_text_witness :
  raw_of (trim (u16 "Here you go: {}. Bye"))
  = firstn 2 (skipn 13 (trim (u16 "Here you go: {}. Bye"))).
Proof.
  destruct (candidate_json_text [] (u16 "Here you go: {}. Bye"))
    as (_ & _ & Hboth & _).
  apply Hboth; vm_compute; discriminate.
Defined.

(** C9 fails as stated: a reply without braces that is JSON by itself
    is parsed and returned, not treated as a failure. *)
Lemma braceless_reply_is_parsed :
  indexOf (trim (u16 "42")) LBRACE = -1
  /\ lastIndexOf (trim (u16 "42")) RBRACE = -1
  /\ agentReply (u16 "Dana") (Samples.answers "42") = Normal (JNum 42 0)
  /\ JNum 42 0 <> FALLBACK.
Proof. vm_compute. repeat split. discriminate. Qed.

(** *** [JSON.parse] is given enough fuel *)

Section Fuel.

Local Open Scope nat_scope.

Lemma skip_ws_length t : length (skip_ws t) <= length t.
Proof.
  induction t as [|c t IH]; simpl; [lia|].
  destruct (is_ws c); simpl; lia.
Qed.

Lemma take_digits_length t : forall ds rest,
  take_digits t = (ds, rest) -> length rest <= length t.
Proof.
  induction t as [|c t IH]; simpl; intros ds rest H.
  - injection H as <- <-. simpl. lia.
  - destruct (is_digit c).
    + destruct (take_digits t) as [ds' rest'] eqn:E.
      injection H as <- <-. specialize (IH _ _ eq_refl). lia.
    + injection H as <- <-. simpl. lia.
Qed.

Lemma expect_length c t t' : expect c t = Some t' -> length t = S (length t').
Proof.
  destruct t as [|d t]; simpl; [discriminate|].
  destruct (d =? c)%N; [|discriminate]. by intros [= ->].
Qed.

Lemma expect_all_length w : forall t t',
  expect_all w t = Some t' -> length t' <= length t.
Proof.
  induction w as [|c w IH]; simpl; intros t t' H.
  - injection H as <-. lia.
  - destruct (expect c t) as [t1|] eqn:E; [|discriminate].
    apply expect_length in E. apply IH in H. lia.
Qed.

Lemma parse_chars_length n : forall t cs rest,
  length t <= n -> parse_chars t = Some (cs, rest) -> length rest < length t.
Proof.
  induction n as [|n IH]; intros t cs rest Hn H.
  - destruct t; [discriminate | simpl in Hn; lia].
  - destruct t as [|c t1]; [discriminate|]. simpl in Hn, H.
    destruct (c =? 34)%N; [injection H as <- <-; simpl; lia|].
    destruct (c <? 32)%N; [discriminate|].
    assert (Hrec : forall u t' cs' rest',
               length t' <= n ->
               match parse_chars t' with
               | Some (cs0, rest0) => Some (u :: cs0, rest0)
               | None => None
               end = Some (cs', rest') -> length rest' < length t').
    { intros u t' cs' rest' Hlen Hm.
      destruct (parse_chars t') as [[cs0 rest0]|] eqn:E; [|discriminate].
      injection Hm as <- <-. eapply IH; eauto. }
    destruct (c =? 92)%N.
    + destruct t1 as [|e t2]; [discriminate|]. simpl in Hn.
      repeat match type of H with
             | (if ?b then _ else _) = _ =>
                 destruct b;
                 [try (apply Hrec in H; [simpl; lia | lia]) | ]
             end; [|discriminate].
      destruct t2 as [|h1 [|h2 [|h3 [|h4 t3]]]]; try discriminate.
      destruct (hex_val h1), (hex_val h2), (hex_val h3), (hex_val h4);
        try discriminate.
      simpl in Hn. apply Hrec in H; [simpl; lia | lia].
    + apply Hrec in H; [simpl; lia | lia].
Qed.

(** Case analysis on every [match] in the hypotheses. *)
Ltac break_matches :=
  repeat match goal with
         | H : context [match ?x with _ => _ end] |- _ =>
             destruct x eqn:?; try discriminate
         end.

(** What the equations in the context say about lengths. *)
Ltac length_facts :=
  repeat match goal with
         | E : skip_ws ?x = _ |- _ =>
             let L := fresh "L" in
             pose proof (skip_ws_length x) as L; rewrite E in L; clear E
         | E : take_digits _ = _ |- _ => apply take_digits_length in E
         | E : expect _ _ = Some _ |- _ => apply expect_length in E
         | E : expect_all _ _ = Some _ |- _ => apply expect_all_length in E
         | E : parse_chars _ = Some _ |- _ =>
             eapply parse_chars_length in E; [|reflexivity]
         end;
  repeat match goal with
         | _ : context [skip_ws ?x] |- _ =>
             lazymatch goal with
             | _ : length (skip_ws x) <= length x |- _ => fail
             | _ => pose proof (skip_ws_length x)
             end
         end.

Lemma parse_number_length t v rest :
  parse_number t = Some (v, rest) -> length rest <= length t.
Proof.
  unfold parse_number. intros H. break_matches.
  all: simplify_eq; length_facts; simpl in *; lia.
Qed.

(** No parser returns more input than it was given. *)
Lemma parse_rest_length f :
  (forall t v rest,
      parse_value f t = Some (v, rest) -> length rest <= length t)
  /\ (forall t acc ps rest,
        parse_members f t acc = Some (ps, rest) -> length rest <= length t)
  /\ (forall t acc vs rest,
        parse_elements f t acc = Some (vs, rest) -> length rest <= length t).
Proof.
  induction f as [|f (IHv & IHm & IHe)];
    [repeat split; intros; discriminate|].
  repeat split; intros t; intros;
    match goal with H : _ = Some _ |- _ => cbn in H end.
  all: break_matches; simplify_eq.
  all: repeat match goal with
              | E : parse_value _ _ = Some _ |- _ => apply IHv in E
              | E : parse_members _ _ _ = Some _ |- _ => apply IHm in E
              | E : parse_elements _ _ _ = Some _ |- _ => apply IHe in E
              | E : parse_number _ = Some _ |- _ => apply parse_number_length in E
              end.
  all: length_facts; simpl in *; lia.
Qed.

Lemma parse_value_length f t v rest :
  parse_value f t = Some (v, rest) -> length rest <= length t.
Proof. apply parse_rest_length. Qed.

(** Past two units of fuel per code unit, more fuel changes nothing. *)
Lemma fuel_enough f1 :
  (forall f2 t,
      2 * length t + 2 <= f1 -> 2 * length t + 2 <= f2 ->
      parse_value f1 t = parse_value f2 t)
  /\ (forall f2 t acc,
        2 * length t + 3 <= f1 -> 2 * length t + 3 <= f2 ->
        parse_members f1 t acc = parse_members f2 t acc)
  /\ (forall f2 t acc,
        2 * length t + 3 <= f1 -> 2 * length t + 3 <= f2 ->
        parse_elements f1 t acc = parse_elements f2 t acc).
Proof.
  induction f1 as [|f1 (IHv & IHm & IHe)]; [repeat split; intros; lia|].
  repeat split.
  - intros [|f2] t H1 H2; [lia|]. cbn.
    destruct (skip_ws t) as [|c t1] eqn:E; [reflexivity|].
    pose proof (skip_ws_length t) as L. rewrite E in L. simpl in L.
    destruct (c =? 123)%N.
    { destruct (skip_ws t1) as [|d t2] eqn:E1; [reflexivity|].
      pose proof (skip_ws_length t1) as L1. rewrite E1 in L1.
      destruct (d =? 125)%N; [reflexivity|].
      rewrite (IHm f2) by lia. reflexivity. }
    destruct (c =? 91)%N; [|reflexivity].
    destruct (skip_ws t1) as [|d t2] eqn:E1; [reflexivity|].
    pose proof (skip_ws_length t1) as L1. rewrite E1 in L1.
    destruct (d =? 93)%N; [reflexivity|].
    rewrite (IHe f2) by lia. reflexivity.
  - intros [|f2] t acc H1 H2; [lia|]. cbn.
    destruct (expect 34 (skip_ws t)) as [t1|] eqn:E1; [|reflexivity].
    destruct (parse_chars t1) as [[k t2]|] eqn:E2; [|reflexivity].
    destruct (expect 58 (skip_ws t2)) as [t3|] eqn:E3; [|reflexivity].
    pose proof (skip_ws_length t) as L. pose proof (skip_ws_length t2) as L2.
    apply expect_length in E1, E3.
    eapply parse_chars_length in E2; [|reflexivity].
    rewrite (IHv f2) by lia.
    destruct (parse_value f2 t3) as [[v t4]|] eqn:E4; [|reflexivity].
    apply parse_value_length in E4.
    destruct (skip_ws t4) as [|c t5] eqn:E5; [reflexivity|].
    pose proof (skip_ws_length t4) as L4. rewrite E5 in L4. simpl in L4.
    destruct (c =? 44)%N; [|reflexivity].
    apply IHm; lia.
  - intros [|f2] t acc H1 H2; [lia|]. cbn.
    rewrite (IHv f2) by lia.
    destruct (parse_value f2 t) as [[v t1]|] eqn:E1; [|reflexivity].
    apply parse_value_length in E1.
    destruct (skip_ws t1) as [|c t2] eqn:E2; [reflexivity|].
    pose proof (skip_ws_length t1) as L1. rewrite E2 in L1. simpl in L1.
    destruct (c =? 44)%N; [|reflexivity].
    apply IHe; lia.
Qed.

(** [JSON_parse] gives the parser all the fuel it can use. *)
Lemma JSON_parse_fuel (t : jsstring) (f : nat) :
  2 * length t + 2 <= f ->
  parse_value f t = parse_value (2 * length t + 2) t.
Proof. intros Hf. apply fuel_enough; lia. Qed.

End Fuel.

(* ===================================================================== *)
(** ** Further properties of [src/app.js] *)
(* ===================================================================== *)

(** *** The prompt of /voice/gather *)

(** X1. Below the budget, /voice/gather answers with a [Gather] whose
    action is /voice/handle, followed by a redirect to itself; the
    prompt asks for both fields exactly when neither is set, for the
    name exactly when only the time is set, for the time exactly when
    only the name is set, and says "One moment." exactly when both are
    set. The service is not called and the session keeps its state. *)
Theorem gather_asks_for_what_is_missing
  (lib : Library) (cfg : Config) (req : Request) (st : Sessions)
  (Hunder : turns (deref st (CallSid req)) < MAX_TURNS cfg) :
  let x := deref st (CallSid req) in
  let out := turn lib cfg (VoiceGather req) st in
  exists prompt,
    out_reply out = Responded [Gather URL_HANDLE prompt; Redirect URL_GATHER]
    /\ nextAction [Gather URL_HANDLE prompt; Redirect URL_GATHER] = Some LISTEN
    /\ out_calls out = []
    /\ deref (out_sessions out) (CallSid req) = x
    /\ (prompt = SAY_ASK_BOTH <->
        truthy (name x) = false /\ truthy (preferred_time x) = false)
    /\ (prompt = SAY_ASK_NAME <->
        truthy (name x) = false /\ truthy (preferred_time x) = true)
    /\ (prompt = SAY_ASK_TIME <->
        truthy (name x) = true /\ truthy (preferred_time x) = false)
    /\ (prompt = SAY_ONE_MOMENT <->
        truthy (name x) = true /\ truthy (preferred_time x) = true).
Proof.
  simpl. rewrite run_gather. simpl.
  assert (Hleb : (MAX_TURNS cfg <=? turns (deref st (CallSid req))) = false)
    by (apply Z.leb_gt; lia).
  rewrite Hleb.
  rewrite deref_insert. eexists. split; [reflexivity|].
  split; [reflexivity|]. split; [reflexivity|]. split; [reflexivity|].
  unfold gather_prompt.
  destruct (truthy (name _)), (truthy (preferred_time _)); simpl;
    repeat split; intros; try discriminate; try tauto;
    match goal with H : _ = _ |- _ => vm_compute in H; discriminate
                  | H : _ /\ _ |- _ => destruct H; discriminate end.
Qed.

Lemma gather_asks_for_what_is_missing_witness :
  exists prompt,
    out_reply (turn Samples.lib Samples.cfg (VoiceGather Samples.silence)
                 (turns_from Samples.lib Samples.cfg [Renaming.first_turn] ∅))
    = Responded [Gather URL_HANDLE prompt; Redirect URL_GATHER]
    /\ prompt = SAY_ASK_TIME.
Proof.
  destruct (gather_asks_for_what_is_missing Samples.lib Samples.cfg Samples.silence
              (turns_from Samples.lib Samples.cfg [Renaming.first_turn] ∅))
    as (prompt & Hreply & _ & _ & _ & _ & _ & Htime & _);
    [vm_compute; reflexivity|].
  exists prompt. split; [exact Hreply|].
  apply Htime. vm_compute. split; reflexivity.
Defined.

(** *** Sessions of different calls *)

Lemma turn_sessions_frame lib cfg w st k :
  call_of w <> Some k -> out_sessions (turn lib cfg w st) !! k = st !! k.
Proof.
  intros Hk. destruct w as [req|req|req|req o]; simpl in *.
  - rewrite run_initial. simpl. apply lookup_insert_ne. congruence.
  - by rewrite run_after_transfer_attempt.
  - rewrite run_gather. simpl. apply lookup_insert_ne. congruence.
  - rewrite run_handle. destruct (handle_closed _ _ _ _) as [[x' doc] calls].
    simpl. apply lookup_insert_ne. congruence.
Qed.

(** X2. A webhook of one call never changes the session stored for
    another call. A webhook that is not a speech turn changes the state
    of no session at all and never calls the service. *)
Theorem sessions_are_isolated
  (lib : Library) (cfg : Config) (w : Webhook) (st : Sessions) (k : CallId) :
  (call_of w <> Some k -> out_sessions (turn lib cfg w st) !! k = st !! k)
  /\ ((forall req o, w <> VoiceHandle req o) ->
      deref (out_sessions (turn lib cfg w st)) k = deref st k
      /\ out_calls (turn lib cfg w st) = []).
Proof.
  split; [apply turn_sessions_frame|].
  intros Hw. rewrite deref_turn.
  destruct w as [req|req|req|req o]; simpl.
  - by rewrite run_initial.
  - by rewrite run_after_transfer_attempt.
  - by rewrite run_gather.
  - by destruct (Hw req o).
Qed.

Lemma sessions_are_isolated_witness :
  out_sessions (turn Samples.lib Samples.cfg Renaming.first_turn ∅) !! Some (u16 "CA2")
  = (∅ : Sessions) !! Some (u16 "CA2").
Proof.
  destruct (sessions_are_isolated Samples.lib Samples.cfg Renaming.first_turn ∅
              (Some (u16 "CA2"))) as (Hframe & _).
  apply Hframe. vm_compute. discriminate.
Defined.

(** X6. The session map only grows: a turn on /voice/initial,
    /voice/gather or /voice/handle adds the key of its call (if new)
    and nothing else, the transfer-outcome callback adds nothing, and
    no sequence of webhooks ever removes a session. *)
Theorem sessions_are_never_evicted
  (lib : Library) (cfg : Config) (w : Webhook) (ws : list Webhook) (st : Sessions) :
  dom (out_sessions (turn lib cfg w st))
  = match call_of w with
    | Some k => {[k]} ∪ dom st
    | None => dom st
    end
  /\ dom st ⊆ dom (turns_from lib cfg ws st).
Proof.
  assert (Hone : forall w0 st0,
             dom (out_sessions (turn lib cfg w0 st0))
             = match call_of w0 with
               | Some k => {[k]} ∪ dom st0
               | None => dom st0
               end).
  { intros w0 st0. destruct w0 as [req|req|req|req o]; simpl.
    - rewrite run_initial. simpl. apply dom_insert_L.
    - by rewrite run_after_transfer_attempt.
    - rewrite run_gather. simpl. apply dom_insert_L.
    - rewrite run_handle. destruct (handle_closed _ _ _ _) as [[x' doc] calls].
      simpl. apply dom_insert_L. }
  split; [apply Hone|].
  revert st. induction ws as [|w0 ws IH]; intros st; simpl; [done|].
  etrans; [|apply IH]. rewrite Hone. clear.
  destruct (call_of w0); set_solver.
Qed.

(** *** The turn count *)

Lemma merge_extracted_turns ex x : turns (merge_extracted ex x) = turns x.
Proof.
  unfold merge_extracted.
  destruct (truthy (prop ex (u16 "name"))),
           (truthy (prop ex (u16 "preferred_time")));
    simpl; by destruct (_ && _).
Qed.

Lemma session_after_turns lib w k x :
  turns (session_after lib w k x) = turns x + counted k w.
Proof.
  destruct w as [req|req|req|req o]; simpl; try lia.
  destruct (decide (CallSid req = k)); [|lia].
  unfold handle_closed.
  destruct (call_trim _) as [speech|]; [|simpl; lia].
  destruct (negb _); [reflexivity|].
  destruct (agentReply speech o) as [cmd|]; [|reflexivity].
  destruct (get_prop cmd _); [|reflexivity].
  simpl. by rewrite merge_extracted_turns.
Qed.

Lemma counted_range k w : 0 <= counted k w <= 1.
Proof.
  destruct w as [req|req|req|req o]; simpl; try lia.
  destruct (decide _); [|lia]. destruct (call_trim _); lia.
Qed.

Lemma turns_after_webhooks lib cfg k ws : forall st,
  turns (deref (turns_from lib cfg ws st) k)
  = turns (deref st k) + fold_right Z.add 0 (map (counted k) ws).
Proof.
  induction ws as [|w ws IH]; intros st; simpl; [lia|].
  rewrite IH, deref_turn, session_after_turns. lia.
Qed.

Lemma counted_sum_nonneg k ws : 0 <= fold_right Z.add 0 (map (counted k) ws).
Proof.
  induction ws as [|w ws IH]; simpl; [lia|].
  pose proof (counted_range k w). lia.
Qed.

(** X3. After any sequence of webhooks the turn count of a call is its
    count before plus the number of speech turns of that call whose
    speech was absent or a string; a turn raises it by at most one and
    never lowers it. Empty and failed turns count like any other. *)
Theorem turns_count_speech_turns
  (lib : Library) (cfg : Config) (ws : list Webhook) (w : Webhook) (st : Sessions) (k : CallId) :
  turns (deref (turns_from lib cfg ws st) k)
  = turns (deref st k) + fold_right Z.add 0 (map (counted k) ws)
  /\ turns (deref st k) <= turns (deref (turns_from lib cfg ws st) k)
  /\ turns (deref (out_sessions (turn lib cfg w st)) k)
     = turns (deref st k) + counted k w
  /\ 0 <= counted k w <= 1.
Proof.
  rewrite turns_after_webhooks, deref_turn, session_after_turns.
  pose proof (counted_sum_nonneg k ws). pose proof (counted_range k w).
  repeat split; lia.
Qed.

(** X4. Once /voice/gather has closed a call for its budget, it closes
    it again on every later request of that call, whatever webhooks
    came in between: the turn count never goes down. *)
Theorem budget_exhaustion_is_permanent
  (lib : Library) (cfg : Config) (ws : list Webhook) (req req' : Request) (st : Sessions)
  (Hsame : CallSid req' = CallSid req)
  (Hclosed : out_reply (turn lib cfg (VoiceGather req) st)
             = Responded [Say SAY_CLOSING; Hangup]) :
  out_reply (turn lib cfg (VoiceGather req') (turns_from lib cfg ws st))
  = Responded [Say SAY_CLOSING; Hangup].
Proof.
  simpl in *. rewrite run_gather in *. simpl in *.
  destruct (MAX_TURNS cfg <=? turns (deref st (CallSid req))) eqn:E;
    [|discriminate].
  apply Z.leb_le in E. rewrite Hsame.
  pose proof (turns_after_webhooks lib cfg (CallSid req) ws st) as Ht.
  pose proof (counted_sum_nonneg (CallSid req) ws).
  assert (Hle : (MAX_TURNS cfg
                 <=? turns (deref (turns_from lib cfg ws st) (CallSid req))) = true)
    by (apply Z.leb_le; lia).
  by rewrite Hle.
Qed.

Lemma budget_exhaustion_is_permanent_witness :
  out_reply (turn Samples.lib Samples.cfg (VoiceGather Samples.silence)
               (turns_from Samples.lib Samples.cfg [OverBudget.seventh_turn] OverBudget.st6))
  = Responded [Say SAY_CLOSING; Hangup].
Proof.
  apply (budget_exhaustion_is_permanent Samples.lib Samples.cfg [OverBudget.seventh_turn]
           Samples.silence Samples.silence OverBudget.st6 eq_refl).
  vm_compute. reflexivity.
Defined.

(** *** The budget over a call flow *)

Lemma out_calls_handle lib req o st :
  out_calls (run (handle lib req o) st)
  = match call_trim (js_or (SpeechResult req) (JStr [])) with
    | Normal (c :: speech) => [c :: speech]
    | _ => []
    end.
Proof.
  rewrite run_handle. unfold handle_closed.
  destruct (call_trim _) as [[|c speech]|]; try reflexivity. simpl.
  destruct (agentReply_total (c :: speech) o) as [cmd ->].
  by destruct (get_prop cmd _).
Qed.






(** *** When the service fails *)

(** X8. On a speech turn with speech, when the call to the service
    fails or its reply cannot be parsed, the caller hears "Thanks. What
    day and time works best for you?"; the service was called once, the
    turn is counted, and [name], [preferred_time] and the truth of
    [booked] stay as they were: the dialogue goes on (redirect to
    /voice/gather) unless the call was booked already. *)
Theorem service_failure_keeps_the_dialogue
  (lib : Library) (cfg : Config) (ws : list Webhook) (req : Request) (o : ServiceOutcome)
  (c : N) (speech : jsstring) (e : JsError)
  (Hspeech : call_trim (js_or (SpeechResult req) (JStr []))
             = Normal (c :: speech))
  (Hfails : agentReply_try o = Thrown e) :
  let st := turns_from lib cfg ws ∅ in
  let x := deref st (CallSid req) in
  let out := turn lib cfg (VoiceHandle req o) st in
  let x' := deref (out_sessions out) (CallSid req) in
  out_calls out = [c :: speech]
  /\ out_reply out
     = Responded (Say FALLBACK_SAY
                    :: (if truthy (booked x)
                        then [Say SAY_ALL_SET; Hangup]
                        else [Redirect URL_GATHER]))
  /\ turns x' = turns x + 1
  /\ name x' = name x /\ preferred_time x' = preferred_time x
  /\ truthy (booked x') = truthy (booked x).
Proof.
  intros st x out x'. subst x' out.
  pose proof (reachable_inv lib cfg ws (CallSid req)) as Hinv.
  fold st in Hinv. fold x in Hinv.
  unfold booked_iff_populated, populated in Hinv.
  simpl. rewrite run_handle. fold x. unfold handle_closed.
  rewrite Hspeech. unfold agentReply. rewrite Hfails. simpl.
  replace (js_or (own_prop [(u16 "say", JStr FALLBACK_SAY);
                            (u16 "extracted", JObj [])] (u16 "extracted"))
                 (JObj []))
    with (JObj []) by reflexivity.
  replace (js_or (prop FALLBACK (u16 "say")) (JStr SAY_OKAY))
    with (JStr FALLBACK_SAY) by reflexivity.
  rewrite reply_doc_string.
  assert (xml_legal FALLBACK_SAY = true) as -> by by vm_compute.
  rewrite deref_insert.
  assert (Hb : truthy (booked (merge_extracted (JObj []) (incr_turns x)))
               = truthy (booked x)).
  { rewrite merge_extracted_booked. unfold populated.
    rewrite merge_extracted_name, merge_extracted_preferred_time. simpl.
    rewrite Hinv. by destruct (_ && _). }
  rewrite Hb, merge_extracted_turns, merge_extracted_name,
    merge_extracted_preferred_time.
  repeat split.
Qed.

Lemma service_failure_keeps_the_dialogue_witness :
  out_reply (turn Samples.lib Samples.cfg (VoiceHandle (Samples.said "Dana") ServiceRejects) ∅)
  = Responded [Say FALLBACK_SAY; Redirect URL_GATHER].
Proof.
  destruct (service_failure_keeps_the_dialogue Samples.lib Samples.cfg []
              (Samples.said "Dana") ServiceRejects 68%N (u16 "ana") ServiceError)
    as (_ & Hreply & _); [reflexivity | reflexivity | exact Hreply].
Defined.

(** *** When the apology is spoken *)

(** Case analysis on every [match] in the hypotheses. *)
Ltac split_matches :=
  repeat match goal with
         | H : context [match ?x with _ => _ end] |- _ =>
             destruct x eqn:?; try discriminate
         end.

Lemma parse_number_defined t v rest :
  parse_number t = Some (v, rest) -> v <> JUndefined.
Proof.
  unfold parse_number. intros H. split_matches. all: by simplify_eq.
Qed.

Lemma parse_value_defined f t v rest :
  parse_value f t = Some (v, rest) -> v <> JUndefined.
Proof.
  destruct f as [|f]; [discriminate|]. intros H. cbn in H.
  repeat match type of H with
         | context [match ?x with _ => _ end] =>
             destruct x eqn:?; try discriminate H
         end.
  all: try (injection H as <- <-; discriminate).
  eapply parse_number_defined; eauto.
Qed.

(** [JSON.parse] never returns [undefined]. *)
Lemma JSON_parse_defined t v : JSON_parse t = Some v -> v <> JUndefined.
Proof.
  unfold JSON_parse.
  destruct (parse_value _ t) as [[v0 rest]|] eqn:E; [|discriminate].
  destruct (skip_ws rest); [|discriminate].
  intros [= <-]. eapply parse_value_defined; eauto.
Qed.

Lemma agentReply_defined userText o v :
  agentReply userText o = Normal v -> v <> JUndefined.
Proof.
  unfold agentReply, agentReply_try.
  destruct o as [|ot]; [by intros [= <-]|].
  destruct (call_trim _) as [text|]; [|by intros [= <-]].
  destruct (JSON_parse _) as [v0|] eqn:E; [|by intros [= <-]].
  intros [= <-]. eapply JSON_parse_defined; eauto.
Qed.

Lemma agentReply_shape userText output_text :
  (exists t, output_text = JStr t
             /\ agentReply userText (ServiceResolves output_text)
                = Normal (match JSON_parse (raw_of (trim t)) with
                          | Some v => v
                          | None => FALLBACK
                          end))
  \/ agentReply userText (ServiceResolves output_text) = Normal FALLBACK.
Proof.
  destruct output_text as [| | | |t| |];
    try (right; unfold agentReply, agentReply_try, js_or;
         destruct (truthy _); reflexivity).
  left. exists t. split; [reflexivity | apply agentReply_of_text].
Qed.

Lemma agentReply_null userText o :
  agentReply userText o = Normal JNull <->
  exists t, o = ServiceResolves (JStr t)
            /\ JSON_parse (raw_of (trim t)) = Some JNull.
Proof.
  split.
  - destruct o as [|ot]; [unfold agentReply, FALLBACK; simpl; discriminate|].
    destruct (agentReply_shape userText ot) as [(t & -> & Ht) | Hfb].
    + rewrite Ht. destruct (JSON_parse _) as [v|] eqn:E.
      * intros [= ->]. eauto.
      * unfold FALLBACK. discriminate.
    + rewrite Hfb. unfold FALLBACK. discriminate.
  - intros (t & -> & Hp). by rewrite agentReply_of_text, Hp.
Qed.

Lemma call_trim_throws v :
  (exists e, call_trim (js_or v (JStr [])) = Thrown e)
  <-> truthy v = true /\ forall t, v <> JStr t.
Proof.
  unfold js_or. split.
  - intros [e He]. destruct (truthy v) eqn:Ev; [|discriminate].
    split; [reflexivity|]. intros t ->. discriminate.
  - intros [Ev Hns]. rewrite Ev.
    destruct v; simpl; eauto. by destruct (Hns t).
Qed.

(** X9. /voice/handle answers with the apology and a hangup in exactly
    three cases: the [SpeechResult] of the request is a truthy value
    that is not a string (it has no [trim]); or the speech is not empty
    and the reply of the service has the JSON text [null] as its
    candidate (reading [cmd.extracted] of [null] throws); or the speech
    is not empty, the reply is not [null] and [twiml.say] throws on the
    line [cmd.say || "Okay."], which for a string line means that it
    holds a character that XML does not allow. In the first case the
    turn is not counted; in the second it is, and the service was
    called; in the third the turn is counted, the service was called
    and what it reported is stored, [booked] included. *)
Theorem apology_exactly_on_internal_error
  (lib : Library) (cfg : Config) (req : Request) (o : ServiceOutcome)
  (st : Sessions) :
  let out := turn lib cfg (VoiceHandle req o) st in
  let x := deref st (CallSid req) in
  let x' := deref (out_sessions out) (CallSid req) in
  (out_reply out = Responded [Say SAY_APOLOGY; Hangup]
   <-> (truthy (SpeechResult req) = true
        /\ forall t, SpeechResult req <> JStr t)
       \/ (exists t c speech text,
              SpeechResult req = JStr t /\ trim t = c :: speech
              /\ o = ServiceResolves (JStr text)
              /\ JSON_parse (raw_of (trim text)) = Some JNull)
       \/ (exists c speech cmd,
              call_trim (js_or (SpeechResult req) (JStr []))
              = Normal (c :: speech)
              /\ agentReply (c :: speech) o = Normal cmd
              /\ cmd <> JNull
              /\ say_result lib (js_or (prop cmd (u16 "say")) (JStr SAY_OKAY))
                 = Throws))
  /\ (truthy (SpeechResult req) = true ->
      (forall t, SpeechResult req <> JStr t) ->
      x' = x /\ out_calls out = [])
  /\ (forall c speech,
        call_trim (js_or (SpeechResult req) (JStr [])) = Normal (c :: speech) ->
        agentReply (c :: speech) o = Normal JNull ->
        x' = incr_turns x /\ out_calls out = [c :: speech])
  /\ (forall c speech cmd,
        call_trim (js_or (SpeechResult req) (JStr [])) = Normal (c :: speech) ->
        agentReply (c :: speech) o = Normal cmd ->
        cmd <> JNull ->
        say_result lib (js_or (prop cmd (u16 "say")) (JStr SAY_OKAY)) = Throws ->
        x' = merge_extracted (js_or (prop cmd (u16 "extracted")) (JObj []))
                             (incr_turns x)
        /\ out_calls out = [c :: speech])
  /\ (forall text,
        say_result lib (JStr text) = Throws <-> xml_legal text = false).
Proof.
  intros out x x'. subst x' out. simpl. rewrite run_handle. fold x.
  assert (Hlegal : forall text,
             say_result lib (JStr text) = Throws <-> xml_legal text = false).
  { intros text. simpl. by destruct (xml_legal text). }
  unfold handle_closed.
  destruct (call_trim (js_or (SpeechResult req) (JStr []))) as [speech|e] eqn:Htrim.
  - assert (Hstr : exists t, SpeechResult req = JStr t /\ trim t = speech
                             \/ truthy (SpeechResult req) = false /\ speech = []).
    { unfold js_or in Htrim. destruct (truthy (SpeechResult req)) eqn:Ev.
      - destruct (SpeechResult req); try discriminate.
        injection Htrim as <-. eauto.
      - injection Htrim as <-. exists []. by right. }
    assert (Hnot : ~ (truthy (SpeechResult req) = true
                      /\ forall t, SpeechResult req <> JStr t)).
    { intros Hthrow. apply call_trim_throws in Hthrow as [e He]. congruence. }
    destruct speech as [|c speech]; simpl.
    + split; [|split; [|split; [|split]]].
      * split; [discriminate|].
        intros [H | [(t & c & sp & text & Hs & Ht & _) | (c & sp & cmd & [=] & _)]];
          [contradiction|].
        destruct Hstr as (t' & [[Hs' Ht'] | [Hs' _]]); [congruence|].
        rewrite Hs in Hs'. simpl in Hs'. destruct t; [discriminate Ht|discriminate].
      * intros H1 H2. destruct Hnot. by split.
      * intros c speech [=].
      * intros c speech cmd [=].
      * exact Hlegal.
    + destruct (agentReply_total (c :: speech) o) as [cmd Hcmd]. rewrite Hcmd.
      pose proof (agentReply_defined _ _ _ Hcmd) as Hdef.
      destruct (get_prop cmd (u16 "extracted")) as [ce|e] eqn:Hce.
      * assert (Hnn : cmd <> JNull) by (intros ->; discriminate).
        simpl. rewrite deref_insert.
        split; [|split; [|split; [|split]]].
        -- split.
           { unfold reply_doc.
             destruct (say_result lib _) eqn:Hsay;
               [|destruct (truthy (booked _)); discriminate..].
             intros _. right. right. by exists c, speech, cmd. }
           intros [H | [(t & c' & sp & text & Hs & Ht & -> & Hp)
                       | (c' & sp & cmd' & [= <- <-] & Hcmd' & _ & Hsay)]];
             [contradiction| |].
           ++ rewrite agentReply_of_text, Hp in Hcmd. congruence.
           ++ rewrite Hcmd in Hcmd'. injection Hcmd' as <-.
              unfold reply_doc. by rewrite Hsay.
        -- intros H1 H2. destruct Hnot. by split.
        -- intros c' sp [= <- <-] Hnull. congruence.
        -- intros c' sp cmd' [= <- <-] Hcmd' _ _.
           rewrite Hcmd in Hcmd'. injection Hcmd' as <-.
           by rewrite (get_prop_prop _ _ _ Hce).
        -- exact Hlegal.
      * assert (cmd = JNull) as -> by (destruct cmd; try discriminate; congruence).
        simpl. rewrite deref_insert.
        split; [|split; [|split; [|split]]].
        -- split; [|reflexivity]. intros _. right. left.
           apply agentReply_null in Hcmd as (text & -> & Hp).
           destruct Hstr as (t & [[Hs Ht] | [_ Hnil]]); [|discriminate].
           by exists t, c, speech, text.
        -- intros H1 H2. destruct Hnot. by split.
        -- intros c' sp [= <- <-] _. done.
        -- intros c' sp cmd' [= <- <-] Hcmd' Hnn. congruence.
        -- exact Hlegal.
  - assert (Hthrow : truthy (SpeechResult req) = true
                     /\ forall t, SpeechResult req <> JStr t)
      by (apply call_trim_throws; eauto).
    simpl. rewrite deref_insert.
    split; [|split; [|split; [|split]]].
    + split; [by left | reflexivity].
    + done.
    + intros c speech [=].
    + intros c speech cmd [=].
    + exact Hlegal.
Qed.

Lemma apology_exactly_on_internal_error_witness :
  out_reply (turn Samples.lib Samples.cfg
               (VoiceHandle {| CallSid := Samples.CA1;
                               SpeechResult := JArr [JStr (u16 "a"); JStr (u16 "b")];
                               DialCallStatus := JUndefined |} ServiceRejects) ∅)
  = Responded [Say SAY_APOLOGY; Hangup]
  /\ out_reply (turn Samples.lib Samples.cfg
                  InternalError.unspeakable_booking ∅)
     = Responded [Say SAY_APOLOGY; Hangup].
Proof.
  split.
  - destruct (apology_exactly_on_internal_error Samples.lib Samples.cfg
                {| CallSid := Samples.CA1;
                   SpeechResult := JArr [JStr (u16 "a"); JStr (u16 "b")];
                   DialCallStatus := JUndefined |} ServiceRejects ∅)
      as ((_ & Hsorry) & _).
    apply Hsorry. left. split; [reflexivity | discriminate].
  - destruct (apology_exactly_on_internal_error Samples.lib Samples.cfg
                (Samples.said "Dana, Tuesday at 3pm")
                (Samples.answers
                   ("{" ++ Samples.DQ ++ "say" ++ Samples.DQ ++ ":"
                    ++ Samples.quoted "Hi\u0001"
                    ++ "," ++ Samples.DQ ++ "extracted" ++ Samples.DQ ++ ":{"
                    ++ Samples.DQ ++ "name" ++ Samples.DQ ++ ":"
                    ++ Samples.quoted "Dana" ++ ","
                    ++ Samples.DQ ++ "preferred_time" ++ Samples.DQ ++ ":"
                    ++ Samples.quoted "Tuesday at 3pm" ++ "}}")%string) ∅)
      as ((_ & Hsorry) & _).
    apply Hsorry. right. right.
    eexists _, _, _. split; [by vm_compute|].
    split; [by vm_compute|]. split; [discriminate | by vm_compute].
Defined.

(** *** Prose around the JSON object *)

Lemma indexOf_skip (pre rest : jsstring) (c : N) :
  ~ In c pre -> indexOf (pre ++ c :: rest) c = Z.of_nat (length pre).
Proof.
  induction pre as [|d pre IH]; simpl; intros Hnot.
  - by rewrite N.eqb_refl.
  - destruct (N.eqb_spec d c) as [->|Hne]; [tauto|].
    rewrite IH by tauto.
    destruct (Z.of_nat (length pre) <? 0) eqn:E; [apply Z.ltb_lt in E|]; lia.
Qed.

Lemma lastIndexOf_absent (t : jsstring) (c : N) :
  ~ In c t -> lastIndexOf t c = -1.
Proof.
  induction t as [|d t IH]; simpl; intros Hnot; [reflexivity|].
  rewrite IH by tauto. simpl.
  destruct (N.eqb_spec d c) as [->|Hne]; [tauto | reflexivity].
Qed.

Lemma lastIndexOf_skip (xs post : jsstring) (c : N) :
  ~ In c post -> lastIndexOf (xs ++ c :: post) c = Z.of_nat (length xs).
Proof.
  intros Hnot. induction xs as [|d xs IH]; simpl.
  - rewrite lastIndexOf_absent by exact Hnot. simpl. by rewrite N.eqb_refl.
  - rewrite IH.
    destruct (0 <=? Z.of_nat (length xs)) eqn:E; [|apply Z.leb_gt in E]; lia.
Qed.

Lemma raw_of_surrounded (pre mid post : jsstring) :
  ~ In LBRACE pre -> ~ In RBRACE post ->
  raw_of (pre ++ (LBRACE :: mid ++ [RBRACE]) ++ post)
  = LBRACE :: mid ++ [RBRACE].
Proof.
  intros Hpre Hpost. unfold raw_of.
  set (text := pre ++ (LBRACE :: mid ++ [RBRACE]) ++ post).
  assert (Ha : indexOf text LBRACE = Z.of_nat (length pre)).
  { unfold text. simpl. by apply indexOf_skip. }
  assert (Hb : lastIndexOf text RBRACE = Z.of_nat (length (pre ++ LBRACE :: mid))).
  { assert (Hre : text = (pre ++ LBRACE :: mid) ++ RBRACE :: post).
    { unfold text. rewrite <- (app_assoc pre). simpl. do 2 f_equal.
      by rewrite <- app_assoc. }
    rewrite Hre. by apply lastIndexOf_skip. }
  assert (Hlen : length text
                 = (length pre + (length mid + 2) + length post)%nat).
  { unfold text. rewrite !length_app. simpl. rewrite length_app. simpl. lia. }
  rewrite Ha, Hb. rewrite length_app in *. simpl length in *.
  destruct (0 <=? Z.of_nat (length pre)) eqn:E1; [|apply Z.leb_gt in E1; lia].
  destruct (0 <=? Z.of_nat (length pre + S (length mid))) eqn:E2;
    [|apply Z.leb_gt in E2; lia].
  simpl. rewrite slice_inside by lia.
  rewrite Nat2Z.id.
  replace (Z.to_nat (Z.of_nat (length pre + S (length mid)) + 1
                     - Z.of_nat (length pre)))
    with (length (LBRACE :: mid ++ [RBRACE]))
    by (simpl; rewrite length_app; simpl; lia).
  unfold text. rewrite drop_app_length. apply take_app_length.
Qed.

(** X7. Text around the JSON object is ignored: when the trimmed reply
    of the service is some text without [{], then an object text from
    [{] to [}], then some text without [}], the candidate handed to
    [JSON.parse] is exactly the object text, and [agentReply] returns
    its value (or the fallback if it is not valid JSON). A reply that
    is a bare object text is handed over whole. *)
Theorem prose_around_the_object_is_ignored
  (userText t pre mid post : jsstring)
  (Hpre : ~ In LBRACE pre) (Hpost : ~ In RBRACE post)
  (Htext : trim t = pre ++ (LBRACE :: mid ++ [RBRACE]) ++ post) :
  raw_of (trim t) = LBRACE :: mid ++ [RBRACE]
  /\ agentReply userText (ServiceResolves (JStr t))
     = Normal (match JSON_parse (LBRACE :: mid ++ [RBRACE]) with
               | Some v => v
               | None => FALLBACK
               end)
  /\ (pre = [] -> post = [] -> raw_of (trim t) = trim t).
Proof.
  assert (Hraw : raw_of (trim t) = LBRACE :: mid ++ [RBRACE])
    by (rewrite Htext; by apply raw_of_surrounded).
  split; [exact Hraw|]. split.
  - by rewrite agentReply_of_text, Hraw.
  - intros -> ->. rewrite Hraw, Htext. simpl. by rewrite app_nil_r.
Qed.

Lemma prose_around_the_object_is_ignored_witness :
  agentReply (u16 "Dana") (Samples.answers Chatty.reply)
  = Normal (JObj [(u16 "say", JStr (u16 "Hi"))]).
Proof.
  destruct (prose_around_the_object_is_ignored (u16 "Dana")
              (u16 Chatty.reply) (u16 Chatty.pre) (u16 Chatty.mid)
              (u16 Chatty.post))
    as (_ & Hreply & _).
  - vm_compute. intuition discriminate.
  - vm_compute. intuition discriminate.
  - vm_compute. reflexivity.
  - exact Hreply.
Defined.

(** *** Start-up and the outbound call *)

(** X10. The process starts exactly when [BASE_URL], the three Twilio
    variables and [OPENAI_API_KEY] are all set to non-empty strings;
    otherwise it throws, and the first failing check names the error:
    the base URL before the Twilio variables, those before the OpenAI
    key. *)
Theorem startup_requires_the_five_variables (env : Outbound.Env) :
  (Outbound.startup env = None <->
   truthy (Outbound.BASE_URL env) = true
   /\ truthy (Outbound.TWILIO_ACCOUNT_SID env) = true
   /\ truthy (Outbound.TWILIO_AUTH_TOKEN env) = true
   /\ truthy (Outbound.TWILIO_FROM_NUMBER env) = true
   /\ truthy (Outbound.OPENAI_API_KEY env) = true)
  /\ (Outbound.startup env = Some Outbound.MSG_BASE_URL <->
      truthy (Outbound.BASE_URL env) = false)
  /\ (Outbound.startup env = Some Outbound.MSG_TWILIO <->
      truthy (Outbound.BASE_URL env) = true
      /\ (truthy (Outbound.TWILIO_ACCOUNT_SID env) = false
          \/ truthy (Outbound.TWILIO_AUTH_TOKEN env) = false
          \/ truthy (Outbound.TWILIO_FROM_NUMBER env) = false))
  /\ (Outbound.startup env = Some Outbound.MSG_OPENAI <->
      truthy (Outbound.BASE_URL env) = true
      /\ truthy (Outbound.TWILIO_ACCOUNT_SID env) = true
      /\ truthy (Outbound.TWILIO_AUTH_TOKEN env) = true
      /\ truthy (Outbound.TWILIO_FROM_NUMBER env) = true
      /\ truthy (Outbound.OPENAI_API_KEY env) = false).
Proof.
  unfold Outbound.startup.
  destruct (truthy (Outbound.BASE_URL env)),
           (truthy (Outbound.TWILIO_ACCOUNT_SID env)),
           (truthy (Outbound.TWILIO_AUTH_TOKEN env)),
           (truthy (Outbound.TWILIO_FROM_NUMBER env)),
           (truthy (Outbound.OPENAI_API_KEY env)); simpl;
    repeat split; intros; try discriminate; try tauto;
    try (match goal with H : Some _ = Some _ |- _ =>
           vm_compute in H; discriminate end);
    intuition discriminate.
Qed.

(** X11. POST /call never places a call without a destination: when
    [to] is missing or empty it answers 400 with an error body and does
    not reach Twilio. Otherwise it places exactly one call, to [to],
    from the configured number, whose webhook is /voice/initial under
    the base URL, and it answers 200 with [ok] and the call's sid when
    Twilio accepts the call. *)
Theorem post_call_needs_a_destination
  (base_url : jsstring) (from to : JsValue) (create : Outbound.CreateOutcome) :
  let out := Outbound.post_call base_url from to create in
  (truthy to = false ->
   out = (Outbound.Json 400
            (JObj [(u16 "error", JStr Outbound.MSG_MISSING_TO)]), []))
  /\ (truthy to = true ->
      exists request,
        out.2 = [request]
        /\ Outbound.cr_to request = to
        /\ Outbound.cr_from request = from
        /\ Outbound.cr_url request = base_url ++ Outbound.URL_INITIAL
        /\ (forall sid, create = Outbound.CreateResolves sid ->
            out.1 = Outbound.Json 200
                      (JObj [(u16 "ok", JBool true); (u16 "callSid", sid)]))).
Proof.
  unfold Outbound.post_call. split; intros Hto; rewrite Hto; simpl.
  - reflexivity.
  - destruct create; eexists; repeat split; simpl; try reflexivity;
      intros; congruence.
Qed.

Lemma post_call_needs_a_destination_witness :
  Outbound.post_call (u16 "https://example.test") (JStr (u16 "+15550100"))
    JUndefined Outbound.CreateRejects
  = (Outbound.Json 400 (JObj [(u16 "error", JStr Outbound.MSG_MISSING_TO)]), []).
Proof.
  destruct (post_call_needs_a_destination (u16 "https://example.test")
              (JStr (u16 "+15550100")) JUndefined Outbound.CreateRejects)
    as (Hmissing & _).
  apply Hmissing. reflexivity.
Defined.

(* ===================================================================== *)
(** ** Properties of the draft [src/unnamed/part_000] *)
(* ===================================================================== *)

Lemma draft000_agentReply_total userText o :
  exists v, Draft000.agentReply userText o = Normal v.
Proof. unfold Draft000.agentReply. destruct (Draft000.agentReply_try o); eauto. Qed.

(** X12. The draft's [agentReply] never throws and answers [null] on
    every failure: a rejected call, an empty or non-string response
    text, a text lacking [{] or [}], a candidate that is not JSON, a
    value without a truthy [say]. Any other answer is the value parsed
    from the text between the first [{] and the last [}], and its [say]
    is truthy. *)
Theorem draft000_agentReply_null_or_usable
  (userText : jsstring) (o : ServiceOutcome) :
  (Draft000.agentReply userText o = Normal JNull
   \/ exists t v,
        o = ServiceResolves (JStr t)
        /\ 0 <= indexOf (trim t) LBRACE /\ 0 <= lastIndexOf (trim t) RBRACE
        /\ JSON_parse (raw_of (trim t)) = Some v
        /\ truthy (prop v (u16 "say")) = true
        /\ Draft000.agentReply userText o = Normal v)
  /\ (o = ServiceRejects -> Draft000.agentReply userText o = Normal JNull)
  /\ (forall t, o = ServiceResolves (JStr t) ->
        indexOf (trim t) LBRACE = -1 \/ lastIndexOf (trim t) RBRACE = -1 ->
        Draft000.agentReply userText o = Normal JNull)
  /\ (forall t, o = ServiceResolves (JStr t) ->
        JSON_parse (raw_of (trim t)) = None ->
        Draft000.agentReply userText o = Normal JNull)
  /\ (forall t v, o = ServiceResolves (JStr t) ->
        JSON_parse (raw_of (trim t)) = Some v ->
        truthy (prop v (u16 "say")) = false ->
        Draft000.agentReply userText o = Normal JNull).
Proof.
  assert (Hshape : forall t,
             Draft000.agentReply userText (ServiceResolves (JStr t))
             = Normal
                 (if negb (truthy (JStr (trim t))) then JNull
                  else if (indexOf (trim t) LBRACE =? -1)
                          || (lastIndexOf (trim t) RBRACE =? -1) then JNull
                  else match JSON_parse (raw_of (trim t)) with
                       | Some v => if truthy (prop v (u16 "say")) then v else JNull
                       | None => JNull
                       end)).
  { intros t. unfold Draft000.agentReply, Draft000.agentReply_try, js_or.
    assert (call_trim (if truthy (JStr t) then JStr t else JStr [])
            = Normal (trim t)) as -> by by destruct t.
    destruct (negb (truthy (JStr (trim t)))); [reflexivity|].
    destruct (indexOf_spec (trim t) LBRACE) as [[Ha _]|[Ha _]];
      [rewrite Ha; reflexivity|].
    destruct (lastIndexOf_spec (trim t) RBRACE) as [[Hb _]|[Hb _]];
      [rewrite Hb; simpl; by rewrite orb_true_r|].
    assert ((indexOf (trim t) LBRACE =? -1) = false) as -> by (apply Z.eqb_neq; lia).
    assert ((lastIndexOf (trim t) RBRACE =? -1) = false) as ->
      by (apply Z.eqb_neq; lia).
    simpl. unfold raw_of.
    assert ((0 <=? indexOf (trim t) LBRACE) = true) as -> by (apply Z.leb_le; lia).
    assert ((0 <=? lastIndexOf (trim t) RBRACE) = true) as ->
      by (apply Z.leb_le; lia).
    simpl. destruct (JSON_parse _) as [v|]; [|reflexivity].
    unfold prop. destruct (get_prop v (u16 "say")) as [w|]; [|reflexivity].
    by destruct (truthy w). }
  split; [|split; [|split; [|split]]].
  - destruct o as [|ot]; [by left|].
    destruct ot as [| | | |t| |];
      try (left; unfold Draft000.agentReply, Draft000.agentReply_try, js_or;
           destruct (truthy _); reflexivity).
    rewrite Hshape.
    destruct (negb (truthy (JStr (trim t)))); [by left|].
    destruct (indexOf (trim t) LBRACE =? -1) eqn:Ea; [by left|].
    destruct (lastIndexOf (trim t) RBRACE =? -1) eqn:Eb; [by left|].
    simpl. destruct (JSON_parse _) as [v|] eqn:Ep; [|by left].
    destruct (truthy (prop v (u16 "say"))) eqn:Es; [|by left].
    right. exists t, v. apply Z.eqb_neq in Ea, Eb.
    destruct (indexOf_spec (trim t) LBRACE) as [[? _]|[? _]]; [lia|].
    destruct (lastIndexOf_spec (trim t) RBRACE) as [[? _]|[? _]]; [lia|].
    repeat split; auto; lia.
  - by intros ->.
  - intros t -> Hmiss. rewrite Hshape.
    destruct (negb _); [reflexivity|].
    destruct Hmiss as [-> | ->]; simpl; by rewrite ?orb_true_r.
  - intros t -> Hp. rewrite Hshape, Hp.
    destruct (negb _); [reflexivity|]. by destruct (_ || _).
  - intros t v -> Hp Hs. rewrite Hshape, Hp, Hs.
    destruct (negb _); [reflexivity|]. by destruct (_ || _).
Qed.

Lemma draft000_agentReply_null_or_usable_witness :
  Draft000.agentReply (u16 "Dana") (Samples.answers "42") = Normal JNull.
Proof.
  destruct (draft000_agentReply_null_or_usable (u16 "Dana") (Samples.answers "42"))
    as (_ & _ & Hmiss & _).
  apply (Hmiss (u16 "42")); [reflexivity | left; reflexivity].
Defined.

Lemma draft000_run_handle lib req o st :
  run (Draft000.handle lib req o) st =
  let '(x', doc, calls) :=
    Draft000.handle_closed lib req o (deref st (CallSid req)) in
  {| out_sessions := <[CallSid req := x']> st;
     out_reply := Responded doc;
     out_calls := calls |}.
Proof.
  unfold run, Draft000.handle, try_catch, Draft000.handle_try,
    Draft000.handle_closed.
  unfold mbind, M_bind, bind, s, lift. simpl.
  rewrite s_sessions.
  destruct (call_trim _) as [speech|e] eqn:Htrim; [|reflexivity].
  unfold write at 1. simpl. rewrite deref_insert, insert_insert_eq.
  destruct speech as [|c sp]; simpl; [reflexivity|].
  unfold Draft000.await_agentReply.
  destruct (draft000_agentReply_total (c :: sp) o) as [cmd ->]. simpl.
  destruct (truthy cmd) eqn:Hcmd; simpl; [|reflexivity].
  destruct (get_prop_truthy _ (u16 "say") Hcmd) as [w Hw].
  destruct (get_prop_truthy _ (u16 "extracted") Hcmd) as [ce Hce].
  rewrite (get_prop_prop _ _ _ Hw), (get_prop_prop _ _ _ Hce), Hw. simpl.
  destruct (Draft000.typeof_string w); simpl; [|reflexivity].
  rewrite Hce.
  assert (Hex : truthy (js_or ce (JObj [])) = true) by by apply js_or_truthy.
  destruct (get_prop_truthy _ (u16 "name") Hex) as [n Hn].
  destruct (get_prop_truthy _ (u16 "preferred_time") Hex) as [p Hp].
  unfold merge_extracted, reply_doc, twiml_say.
  rewrite (get_prop_prop _ _ _ Hn), (get_prop_prop _ _ _ Hp).
  rewrite Hn, Hp.
  destruct (say_result lib (js_or w (JStr SAY_OKAY))) as [|text|];
    unfold handle_catch, mbind, M_bind, bind, when, write, read, emit, send,
      ret, lift;
    destruct (truthy n), (truthy p); simpl;
    repeat (rewrite ?deref_insert, ?insert_insert_eq; simpl;
            match goal with
            | |- context [if ?b then _ else _] => destruct b eqn:?
            end);
    rewrite ?deref_insert, ?insert_insert_eq; simpl;
    rewrite ?deref_insert, ?insert_insert_eq;
    try reflexivity; rewrite ?deref_insert in *; simpl in *; congruence.
Qed.

(** In the draft the line handed to [twiml.say] is a string, so the
    library's treatment of other values plays no part. *)
Lemma draft000_line_is_string lib w :
  Draft000.typeof_string w = true ->
  exists c u,
    js_or w (JStr SAY_OKAY) = JStr (c :: u)
    /\ say_result lib (js_or w (JStr SAY_OKAY))
       = if xml_legal (c :: u) then Speaks (c :: u) else Throws.
Proof.
  destruct w as [| | | |u| |]; try discriminate. intros _.
  destruct u as [|c u].
  - exists 79%N, (tail SAY_OKAY). by vm_compute.
  - exists c, u. by unfold js_or.
Qed.

(** X13. In the draft a failure of the service never ends the call.
    /voice/handle answers with the apology and a hangup in exactly two
    cases: the [SpeechResult] of the request is a truthy value that is
    not a string; or the speech is not empty and [agentReply] answers a
    value whose [say] is a string holding a character that XML does not
    allow, on which [twiml.say] throws. When the speech is not empty
    and [agentReply] answers [null], or a value whose [say] is not a
    string, the caller hears "Thanks. One moment while I get that
    scheduled." and is sent back to /voice/gather; the turn is counted,
    the service was called once and the fields keep their values. *)
Theorem draft000_apology_cases
  (lib : Library) (req : Request) (o : ServiceOutcome) (st : Sessions) :
  let out := run (Draft000.handle lib req o) st in
  let x := deref st (CallSid req) in
  let x' := deref (out_sessions out) (CallSid req) in
  (out_reply out = Responded [Say SAY_APOLOGY; Hangup]
   <-> (truthy (SpeechResult req) = true
        /\ forall t, SpeechResult req <> JStr t)
       \/ (exists c speech cmd line,
              call_trim (js_or (SpeechResult req) (JStr []))
              = Normal (c :: speech)
              /\ Draft000.agentReply (c :: speech) o = Normal cmd
              /\ truthy cmd = true
              /\ prop cmd (u16 "say") = JStr line
              /\ xml_legal line = false))
  /\ (forall c speech cmd,
        call_trim (js_or (SpeechResult req) (JStr [])) = Normal (c :: speech) ->
        Draft000.agentReply (c :: speech) o = Normal cmd ->
        truthy cmd = false
        \/ Draft000.typeof_string (prop cmd (u16 "say")) = false ->
        out_reply out
        = Responded [Say Draft000.SAY_HOLD; Redirect URL_GATHER]
        /\ out_calls out = [c :: speech]
        /\ x' = incr_turns x).
Proof.
  intros out x x'. subst x' out. rewrite draft000_run_handle. fold x.
  unfold Draft000.handle_closed.
  destruct (call_trim (js_or (SpeechResult req) (JStr []))) as [speech|e] eqn:Htrim.
  - assert (Hnot : ~ (truthy (SpeechResult req) = true
                      /\ forall t, SpeechResult req <> JStr t)).
    { intros Hthrow. apply call_trim_throws in Hthrow as [e He]. congruence. }
    destruct speech as [|c speech]; simpl.
    + split; [|intros c speech cmd [=]].
      split; [discriminate|].
      intros [H | (c & speech & cmd & line & [=] & _)]. contradiction.
    + destruct (draft000_agentReply_total (c :: speech) o) as [cmd Hcmd].
      rewrite Hcmd.
      destruct (negb (truthy cmd) || negb (Draft000.typeof_string (prop cmd (u16 "say"))))
        eqn:Hbad; simpl; rewrite deref_insert.
      * split; [|intros c' sp cmd' [= <- <-] Hcmd' _; done].
        split; [discriminate|].
        intros [H | (c' & sp & cmd' & line & [= <- <-] & Hcmd' & Hok & Hsay & _)];
          [contradiction|].
        rewrite Hcmd in Hcmd'. injection Hcmd' as <-.
        rewrite Hok, Hsay in Hbad. discriminate.
      * apply orb_false_iff in Hbad as [H1 H2].
        apply negb_false_iff in H1, H2.
        destruct (draft000_line_is_string lib _ H2) as (d & u & Hline & Hsay).
        split.
        { unfold reply_doc. rewrite Hsay.
          destruct (xml_legal (d :: u)) eqn:Hlegal.
          - split; [destruct (truthy (booked _)); discriminate|].
            intros [H | (c' & sp & cmd' & line & [= <- <-] & Hcmd' & _ & Hs & Hl)];
              [contradiction|].
            rewrite Hcmd in Hcmd'. injection Hcmd' as <-.
            rewrite Hs in Hline. unfold js_or in Hline.
            destruct (truthy (JStr line)) eqn:Et.
            + injection Hline as ->. congruence.
            + destruct line; [|discriminate].
              by vm_compute in Hl.
          - split; [|reflexivity]. intros _. right.
            destruct (prop cmd (u16 "say")) as [| | | |line| |] eqn:Hs;
              try discriminate.
            exists c, speech, cmd, line. repeat split; try assumption.
            unfold js_or in Hline. destruct (truthy (JStr line)) eqn:Et.
            + injection Hline as ->. exact Hlegal.
            + assert (Hokay : d :: u = SAY_OKAY) by congruence.
              rewrite Hokay in Hlegal. by vm_compute in Hlegal. }
        intros c' sp cmd' [= <- <-] Hcmd' Hor.
        rewrite Hcmd in Hcmd'. injection Hcmd' as <-.
        destruct Hor; congruence.
  - simpl. split; [|intros c speech cmd [=]].
    split; [|reflexivity]. intros _. left. apply call_trim_throws. eauto.
Qed.

Lemma draft000_apology_cases_witness :
  out_reply (run (Draft000.handle Samples.lib (Samples.said "Dana")
                    (Samples.answers "null")) ∅)
  = Responded [Say Draft000.SAY_HOLD; Redirect URL_GATHER].
Proof.
  destruct (draft000_apology_cases Samples.lib (Samples.said "Dana")
              (Samples.answers "null") ∅) as (_ & Hhold).
  apply (Hhold 68%N (u16 "ana") JNull);
    [reflexivity | reflexivity | left; reflexivity].
Defined.

(** X14. Every line the draft's /voice/handle speaks is a non-empty
    string: the reply of the service is used only after
    [typeof cmd.say === "string"] has been checked. *)
Theorem draft000_speaks_only_strings
  (lib : Library) (req : Request) (o : ServiceOutcome) (st : Sessions) :
  exists doc,
    out_reply (run (Draft000.handle lib req o) st) = Responded doc
    /\ speaks_strings doc.
Proof.
  rewrite draft000_run_handle. unfold Draft000.handle_closed, speaks_strings.
  assert (Hfixed : forall m rest,
             (exists c t, m = c :: t) ->
             speaks_strings rest -> speaks_strings (Say m :: rest)).
  { intros m rest Hm Hrest. by constructor. }
  assert (Hend : forall url, speaks_strings [Redirect url]) by (intros; constructor).
  assert (Hhang : speaks_strings [Hangup]) by constructor.
  assert (Hsorry : speaks_strings APOLOGY_DOC).
  { apply Hfixed; [by vm_compute; eauto | apply Hhang]. }
  unfold speaks_strings in *.
  destruct (call_trim _) as [speech|].
  - destruct (negb (truthy (JStr speech))).
    + eexists. split; [reflexivity|].
      apply Hfixed; [by vm_compute; eauto | apply Hend].
    + destruct (Draft000.agentReply speech o) as [cmd|]; simpl.
      * destruct (negb (truthy cmd)
                  || negb (Draft000.typeof_string (prop cmd (u16 "say")))) eqn:Hbad.
        -- eexists. split; [reflexivity|].
           apply Hfixed; [by vm_compute; eauto | apply Hend].
        -- apply orb_false_iff in Hbad as [_ Hstr].
           apply negb_false_iff in Hstr.
           destruct (draft000_line_is_string lib _ Hstr) as (c & u & _ & Hsay).
           eexists. split; [reflexivity|]. unfold reply_doc. rewrite Hsay.
           destruct (xml_legal (c :: u)); [|apply Hsorry].
           apply Hfixed; [eauto|].
           destruct (truthy (booked _)); [|apply Hend].
           apply Hfixed; [by vm_compute; eauto | apply Hhang].
      * eexists. split; [reflexivity|].
        apply Hfixed; [by vm_compute; eauto | apply Hend].
  - eexists. split; [reflexivity|]. apply Hsorry.
Qed.

(* ===================================================================== *)
(** ** Properties of the draft [src/unnamed/part_002] *)
(* ===================================================================== *)



(* ===================================================================== *)
(** ** Speech and spoken lines in [src/app.js] *)
(* ===================================================================== *)

Lemma trimStart_nil t : trimStart t = [] <-> forallb is_white t = true.
Proof.
  induction t as [|c t IH]; simpl; [tauto|].
  destruct (is_white c); simpl; [exact IH|]. split; discriminate.
Qed.

Lemma trimStart_suffix t : exists ws, t = ws ++ trimStart t /\ forallb is_white ws = true.
Proof.
  induction t as [|c t (ws & Ht & Hws)]; simpl; [by exists []|].
  destruct (is_white c) eqn:E.
  - exists (c :: ws). simpl. rewrite E, Hws. split; [by f_equal|reflexivity].
  - by exists [].
Qed.

Lemma trimStart_keeps_last l c :
  is_white c = false -> trimStart (l ++ [c]) <> [].
Proof.
  intros Hc. induction l as [|d l IH]; simpl.
  - by rewrite Hc.
  - by destruct (is_white d).
Qed.

Lemma trim_nil t : trim t = [] <-> forallb is_white t = true.
Proof.
  unfold trim, trimEnd. split.
  - intros H. destruct (trimStart_suffix t) as (ws & Ht & Hws).
    destruct (trimStart t) as [|c r] eqn:E; [by apply trimStart_nil|].
    exfalso. simpl in E.
    assert (Hc : is_white c = false).
    { destruct t as [|d t']; [discriminate|]. clear -E.
      induction (d :: t') as [|e l IH]; [discriminate|]. simpl in E.
      destruct (is_white e) eqn:Ee; [by apply IH|]. by injection E as -> _. }
    apply (f_equal (@rev N)) in H. rewrite rev_involutive in H. simpl in H.
    revert H. generalize (rev r). intros l H.
    by apply (trimStart_keeps_last l c Hc).
  - intros H. apply trimStart_nil in H. by rewrite H.
Qed.

Lemma trim_start_not_white t c r : trim t = c :: r -> is_white c = false.
Proof.
  unfold trim, trimEnd. intros H.
  destruct (trimStart t) as [|d u] eqn:E; [discriminate|].
  assert (Hd : is_white d = false).
  { clear -E. induction t as [|e l IH]; [discriminate|]. simpl in E.
    destruct (is_white e) eqn:Ee; [by apply IH|]. by injection E as -> _. }
  destruct (trimStart_suffix (rev (d :: u))) as (ws & Hrev & Hws).
  apply (f_equal (@rev N)) in Hrev. rewrite rev_involutive, rev_app_distr in Hrev.
  rewrite H in Hrev. simpl in Hrev. by injection Hrev as <- _.
Qed.

(** X16. The service is called exactly when the speech of the request
    holds a character that is not white space: the speech counts as
    empty exactly when [SpeechResult] is absent, empty or made of white
    space only, and otherwise the service receives the trimmed speech,
    which does not start with white space. *)
Theorem service_called_iff_speech_has_text
  (lib : Library) (cfg : Config) (req : Request) (o : ServiceOutcome) (st : Sessions) :
  let out := turn lib cfg (VoiceHandle req o) st in
  (call_trim (js_or (SpeechResult req) (JStr [])) = Normal []
   <-> truthy (SpeechResult req) = false
       \/ exists t, SpeechResult req = JStr t /\ forallb is_white t = true)
  /\ (out_calls out <> []
      <-> exists t, SpeechResult req = JStr t /\ forallb is_white t = false)
  /\ (forall t, SpeechResult req = JStr t -> forallb is_white t = false ->
      out_calls out = [trim t]
      /\ exists c r, trim t = c :: r /\ is_white c = false).
Proof.
  simpl. rewrite out_calls_handle.
  assert (Htrim : forall t, SpeechResult req = JStr t ->
                  call_trim (js_or (SpeechResult req) (JStr [])) = Normal (trim t)).
  { intros t ->. unfold js_or. by destruct t. }
  split; [|split].
  - split.
    + unfold js_or. destruct (truthy (SpeechResult req)) eqn:Ev; [|by left].
      destruct (SpeechResult req) as [| | | |t| |]; try discriminate.
      simpl. intros [= H]. right. exists t. split; [reflexivity|].
      by apply trim_nil.
    + intros [Hf | (t & Hs & Hw)].
      * unfold js_or. by rewrite Hf.
      * rewrite (Htrim t Hs). f_equal. by apply trim_nil.
  - split.
    + destruct (call_trim _) as [[|c r]|] eqn:E; try congruence. intros _.
      unfold js_or in E. destruct (truthy (SpeechResult req)) eqn:Ev;
        [|discriminate].
      destruct (SpeechResult req) as [| | | |t| |]; try discriminate.
      exists t. split; [reflexivity|]. simpl in E. injection E as E.
      destruct (forallb is_white t) eqn:Hw; [|reflexivity].
      apply trim_nil in Hw. congruence.
    + intros (t & Hs & Hw). rewrite (Htrim t Hs).
      destruct (trim t) as [|c r] eqn:E; [|discriminate].
      apply trim_nil in E. congruence.
  - intros t Hs Hw. rewrite (Htrim t Hs).
    destruct (trim t) as [|c r] eqn:E.
    + apply trim_nil in E. congruence.
    + split; [reflexivity|]. exists c, r. split; [reflexivity|].
      by apply (trim_start_not_white t c r).
Qed.

Lemma service_called_iff_speech_has_text_witness :
  out_calls (turn Samples.lib Samples.cfg (VoiceHandle (Samples.said "  Dana ") ServiceRejects) ∅)
  = [trim (u16 "  Dana ")].
Proof.
  destruct (service_called_iff_speech_has_text Samples.lib Samples.cfg
              (Samples.said "  Dana ") ServiceRejects ∅) as (_ & _ & Hcall).
  apply (Hcall (u16 "  Dana ")); reflexivity.
Defined.
